(** * SQLiteFS: a file system served from rows of a sqlite database

    A shallow embedding of [module.go] (package [sqlitefs]) and the
    properties of its lookup-and-materialise path.

    The Go code talks to [database/sql], [time], [path], [bytes] and
    [io/fs].  The parts of those packages the module calls are modelled
    here next to the module itself, each in its own [Module]. *)

From Stdlib Require Import ZArith String Ascii List Bool Lia.
From stdpp Require Import base option list gmap strings.

Local Open Scope Z_scope.

(** ** Outcomes of Go calls: a normal return or a run-time panic *)

Inductive outcome (A : Type) : Type :=
  | Returns (a : A)
  | Panics (msg : string).
Arguments Returns {A} a.
Arguments Panics {A} msg.

Definition nil_deref : string :=
  "runtime error: invalid memory address or nil pointer dereference".

(** Go's [error] values that occur in the module: the sentinels
    [fs.ErrNotExist], [sql.ErrNoRows] and [io.EOF], and any other error,
    told apart by its message. *)
Inductive error : Type :=
  | ErrNotExist
  | ErrNoRows
  | EOF
  | ErrOther (msg : string).

(** [errors.Is(err, sql.ErrNoRows)] *)
Definition is_ErrNoRows (e : error) : bool :=
  match e with ErrNoRows => true | _ => false end.

(** ** Fixed-width integers *)

Module Int.

(** Two's complement wrap-around of a signed 64-bit integer. *)
Definition wrap64 (z : Z) : Z := (z + 2^63) mod 2^64 - 2^63.

Definition in_int64 (z : Z) : bool := (- 2^63 <=? z) && (z <? 2^63).
Definition in_int32 (z : Z) : bool := (- 2^31 <=? z) && (z <? 2^31).

(** Conversion [uint32(x)] of a signed 32-bit integer. *)
Definition to_uint32 (z : Z) : Z := z mod 2^32.

End Int.

(** ** Package [time]: what [time.Unix], [Time.Unix] and [Time.IsZero] do *)

Module Time.

Inductive Location := UTC | Local.

(** [time.Time] is [struct { wall uint64; ext int64; loc *Location }];
    without a monotonic reading [ext] counts the seconds since
    January 1, year 1. *)
Record t := mk { wall : Z; ext : Z; loc : Location }.

Definition unixToInternal : Z := (1969*365 + 1969/4 - 1969/100 + 1969/400) * 86400.
Definition internalToUnix : Z := - unixToInternal.

(** The zero value [time.Time{}]. *)
Definition zero : t := mk 0 0 UTC.

(** [time.Unix(sec, 0)]: [Time{uint64(nsec), sec + unixToInternal, Local}]. *)
Definition Unix (sec : Z) : t := mk 0 (Int.wrap64 (sec + unixToInternal)) Local.

(** [t.Unix()]: [t.sec() + internalToUnix]. *)
Definition unix (x : t) : Z := Int.wrap64 (ext x + internalToUnix).

(** [t.IsZero()]: [t.sec() == 0 && t.nsec() == 0]. *)
Definition IsZero (x : t) : bool := (ext x =? 0) && (wall x =? 0).

End Time.

(** ** Package [io/fs]: file modes *)

Module FileMode.

(** [fs.FileMode] is a [uint32]. *)
Definition t := Z.

Definition ModeDir : t := Z.shiftl 1 31.
Definition ModePerm : t := 511.

(** The conversion [fs.FileMode(x)] of an [int32]. *)
Definition of_int32 (x : Z) : t := Int.to_uint32 x.

Definition IsDir (m : t) : bool := negb (Z.land m ModeDir =? 0).
Definition Perm (m : t) : t := Z.land m ModePerm.

End FileMode.

(** ** Package [path]: [path.Base] *)

Module Path.

Definition slash : ascii := "/"%char.

Definition is_slash (c : ascii) : bool := Ascii.eqb c slash.

(** Strip trailing slashes, on the reversed path. *)
Fixpoint drop_slashes (rev_path : list ascii) : list ascii :=
  match rev_path with
  | c :: rest => if is_slash c then drop_slashes rest else rev_path
  | [] => []
  end.

(** The last element, on the reversed path: everything before the
    first slash. *)
Fixpoint take_element (rev_path : list ascii) : list ascii :=
  match rev_path with
  | c :: rest => if is_slash c then [] else c :: take_element rest
  | [] => []
  end.

Definition Base (p : string) : string :=
  if String.eqb p "" then "."%string
  else
    let stripped := drop_slashes (rev (list_ascii_of_string p)) in
    let elem := rev (take_element stripped) in
    match elem with
    | [] => "/"%string
    | _ => string_of_list_ascii elem
    end.

End Path.

(** ** Package [bytes]: the part of [bytes.Buffer] behind [Read] *)

Module Buffer.

Record t := mk { buf : list Byte.byte; off : nat }.

(** [bytes.NewBuffer(content)] *)
Definition NewBuffer (content : list Byte.byte) : t := mk content 0.

Definition empty (b : t) : bool := (length (buf b) <=? off b)%nat.

(** [b.Read(p)] with [n = len(p)]: the bytes copied into [p], the
    error and the buffer afterwards. *)
Definition Read (b : t) (n : nat) : t * list Byte.byte * option error :=
  if empty b then
    (mk [] 0, [], if (n =? 0)%nat then None else Some EOF)
  else
    let chunk := firstn n (skipn (off b) (buf b)) in
    (mk (buf b) (off b + length chunk), chunk, None).

End Buffer.

(** ** Package [database/sql] over the sqlite3 driver *)

Module Sql.

(** A [*sql.DB] is known by the number of the [sql.Open] call that made
    it: its generation. *)
Definition handle := nat.

(** A row of table [files]. [content] is a blob, the other three
    columns are nullable integers. *)
Record Entry := mkEntry {
  name : string;
  content : option (list Byte.byte);
  modified : option Z;
  mode : option Z;
  expired_at : option Z
}.

(** What the module asks of the package, in order. *)
Inductive event :=
  | EvOpen (driverName dataSourceName : string)
  | EvClose (h : handle)
  | EvQuery (h : handle) (arg : string).

(** What is kept between calls. *)
Record Driver := mkDriver {
  next : handle;
  closed : list handle;
  log : list event
}.

(** What the outside decides during one call of the module: the reply
    of [sql.Open] (whether a [*DB] comes back, and the error), the
    handles whose queries fail and with which message, the stored rows
    and the clock in epoch seconds. *)
Record Env := mkEnv {
  open_db : bool;
  open_err : option string;
  fault : handle -> option string;
  files : list Entry;
  now : Z
}.

(** [sql.Open(driverName, dataSourceName)]. The package returns a nil
    [*DB] with each of its errors ([open_db] false); the signature
    [( *DB, error)] alone would also let a [*DB] come with an error
    ([open_db] true). *)
Definition Open (env : Env) (driverName dataSourceName : string) (d : Driver)
  : Driver * (option handle * option error) :=
  let log' := log d ++ [EvOpen driverName dataSourceName] in
  if open_db env then
    (mkDriver (S (next d)) (closed d) log',
     (Some (next d), ErrOther <$> open_err env))
  else
    (mkDriver (next d) (closed d) log', (None, ErrOther <$> open_err env)).

(** [db.Close()]: the method locks [db.mu] first, so a nil receiver
    panics. *)
Definition Close (db : option handle) (d : Driver) : outcome Driver :=
  match db with
  | None => Panics nil_deref
  | Some h => Returns (mkDriver (next d) (h :: closed d) (log d ++ [EvClose h]))
  end.

(** [expired_at IS NULL OR expired_at > strftime('%s','now')], with
    [clock] the epoch seconds [strftime] gives; [expired_at] is an
    integer column, so the comparison is one of numbers. *)
Definition visible (clock : Z) (e : Entry) : bool :=
  match expired_at e with
  | None => true
  | Some x => clock <? x
  end.

(** The [WHERE] clause of the query. *)
Definition selected (arg : string) (clock : Z) (e : Entry) : bool :=
  String.eqb (name e) arg && visible clock e.

(** [SELECT content, modified, mode FROM files WHERE ... LIMIT 1]: the
    first row, in the order the store yields them, that passes the
    [WHERE] clause. *)
Definition select (env : Env) (arg : string) : option Entry :=
  List.find (selected arg (now env)) (files env).

(** What [row.Scan(&content, &modified, &mode)] gives. *)
Inductive scanned :=
  | Scanned (content : list Byte.byte) (modified mode : option Z)
  | ScanErr (e : error).

Definition scan_int (fits : Z -> bool) (what : string) (v : option Z)
  : error + option Z :=
  match v with
  | None => inr None
  | Some z => if fits z then inr (Some z)
              else inl (ErrOther ("converting driver.Value to " ++ what ++ ": value out of range"))
  end.

(** Scan a row into [[]byte], [*int64] and [*int32]. *)
Definition decode (e : Entry) : scanned :=
  match scan_int Int.in_int64 "int64" (modified e) with
  | inl err => ScanErr err
  | inr m =>
      match scan_int Int.in_int32 "int32" (mode e) with
      | inl err => ScanErr err
      | inr d => Scanned (default [] (content e)) m d
      end
  end.

(** [db.QueryRow(query, arg)] followed by [row.Scan(...)]. *)
Definition QueryRowScan (env : Env) (h : handle) (arg : string) (d : Driver)
  : Driver * scanned :=
  let d' := mkDriver (next d) (closed d) (log d ++ [EvQuery h arg]) in
  if bool_decide (h ∈ closed d) then (d', ScanErr (ErrOther "sql: database is closed"))
  else match fault env h with
       | Some msg => (d', ScanErr (ErrOther msg))
       | None =>
           match select env arg with
           | None => (d', ScanErr ErrNoRows)
           | Some e => (d', decode e)
           end
       end.

End Sql.

(** ** The module: [SQLiteFS], [sqliteFile], [sqliteFileInfo] *)

Record SQLiteFS := mkFS {
  DBPath : string;
  db : option Sql.handle
}.

(** Addresses of [SQLiteFS] values. *)
Definition loc := nat.

(** The program state: the [SQLiteFS] values in memory and the state of
    [database/sql]. *)
Record state := mkState {
  heap : gmap loc SQLiteFS;
  driver : Sql.Driver
}.

(** Computations that read the environment, change the state and may
    panic. *)
Definition M (A : Type) : Type := Sql.Env -> state -> outcome (A * state).

#[global] Instance M_ret : MRet M := fun A a _ st => Returns (a, st).

#[global] Instance M_bind : MBind M := fun A B k m env st =>
  match m env st with
  | Returns (a, st') => k a env st'
  | Panics msg => Panics msg
  end.

(** [*p] *)
Definition load (p : loc) : M SQLiteFS :=
  fun _ st =>
    match heap st !! p with
    | Some s => Returns (s, st)
    | None => Panics nil_deref
    end.

(** [p.db = v] *)
Definition store_db (p : loc) (v : option Sql.handle) : M unit :=
  fun _ st =>
    match heap st !! p with
    | Some s => Returns (tt, mkState (<[p := mkFS (DBPath s) v]> (heap st)) (driver st))
    | None => Panics nil_deref
    end.

(** A new variable holding [s]; its address. *)
Definition alloc (s : SQLiteFS) : M loc :=
  fun _ st =>
    let p := fresh (dom (heap st)) in
    Returns (p, mkState (<[p := s]> (heap st)) (driver st)).

Definition sql_Open (driverName dataSourceName : string)
  : M (option Sql.handle * option error) :=
  fun env st =>
    let '(d, r) := Sql.Open env driverName dataSourceName (driver st) in
    Returns (r, mkState (heap st) d).

Definition db_Close (h : option Sql.handle) : M unit :=
  fun _ st =>
    match Sql.Close h (driver st) with
    | Returns d => Returns (tt, mkState (heap st) d)
    | Panics msg => Panics msg
    end.

Definition db_QueryRow_Scan (h : Sql.handle) (arg : string) : M Sql.scanned :=
  fun env st =>
    let '(d, r) := Sql.QueryRowScan env h arg (driver st) in
    Returns (r, mkState (heap st) d).

(** [func (s *SQLiteFS) OpenDB()] *)
Definition OpenDB (s : loc) : M unit :=
  this ← load s;
  match db this with
  | Some _ => mret tt
  | None =>
      r ← sql_Open "sqlite3" (DBPath this ++ "?_journal=WAL");
      match r with
      | (h, Some _) => db_Close h;; store_db s None
      | (h, None) => store_db s h
      end
  end.

(** [func (s *SQLiteFS) Provision(ctx caddy.Context) error] *)
Definition Provision (s : loc) : M (option error) :=
  OpenDB s;; mret None.

(** [func (s *SQLiteFS) Validate() error] *)
Definition Validate (s : loc) : M (option error) := mret None.

Record sqliteFileInfo := mkInfo {
  name : string;
  size : Z;
  modTime : Time.t;
  mode : FileMode.t
}.

(** [sqliteFileInfo{}] *)
Definition zeroInfo : sqliteFileInfo := mkInfo "" 0 Time.zero 0.

Record sqliteFile := mkFile {
  reader : option Buffer.t;
  info : sqliteFileInfo
}.

(** [f.info.modTime = t] and [f.info.mode = m] *)
Definition set_modTime (f : sqliteFile) (t : Time.t) : sqliteFile :=
  mkFile (reader f) (mkInfo (name (info f)) (size (info f)) t (mode (info f))).

Definition set_mode (f : sqliteFile) (m : FileMode.t) : sqliteFile :=
  mkFile (reader f) (mkInfo (name (info f)) (size (info f)) (modTime (info f)) m).

(** The file built at the end of [Open] from the scanned columns. *)
Definition materialize (content : list Byte.byte) (modified mode : option Z)
  : sqliteFile :=
  let f := mkFile (Some (Buffer.NewBuffer content))
                  (mkInfo "" (Z.of_nat (length content)) Time.zero 0) in
  let f := match modified with
           | Some m => set_modTime f (Time.Unix m)
           | None => f
           end in
  match mode with
  | Some d => set_mode f (FileMode.of_int32 d)
  | None => f
  end.

(** The body of [Open], run on the address [s] of the receiver. *)
Definition Open_body (s : loc) (name : string) : M (option sqliteFile * option error) :=
  OpenDB s;;
  this ← load s;
  match db this with
  | None => mret (None, Some ErrNotExist)
  | Some h =>
      r ← db_QueryRow_Scan h name;
      match r with
      | Sql.ScanErr err =>
          (if negb (is_ErrNoRows err) then store_db s None else mret tt);;
          mret (None, Some ErrNotExist)
      | Sql.Scanned content modified mode =>
          mret (Some (materialize content modified mode), None)
      end
  end.

(** [func (s SQLiteFS) Open(name string) (fs.File, error)]: the receiver
    is passed by value, so the body works on a variable of its own. *)
Definition Open (recv : SQLiteFS) (name : string) : M (option sqliteFile * option error) :=
  s ← alloc recv;
  Open_body s name.

(** A call [p.Open(name)] through a pointer, as the host makes it:
    [( *p).Open(name)]. *)
Definition Open_at (p : loc) (name : string) : M (option sqliteFile * option error) :=
  recv ← load p;
  Open recv name.

(** [func (f sqliteFile) Stat() (fs.FileInfo, error)] *)
Definition Stat (f : sqliteFile) : sqliteFileInfo * option error := (info f, None).

(** [func (f sqliteFile) Read(p []byte) (int, error)] with [n = len(p)];
    the buffer is behind a pointer, so the file afterwards holds the
    advanced buffer. *)
Definition Read (f : sqliteFile) (n : nat)
  : outcome (sqliteFile * list Byte.byte * option error) :=
  match reader f with
  | None => Panics nil_deref
  | Some b =>
      let '(b', chunk, err) := Buffer.Read b n in
      Returns (mkFile (Some b') (info f), chunk, err)
  end.

(** [func (f *sqliteFile) Close() error] *)
Definition Close (f : sqliteFile) : sqliteFile * option error :=
  (mkFile None zeroInfo, None).

(** Methods of [sqliteFileInfo]. *)
Definition Name (fi : sqliteFileInfo) : string := Path.Base (name fi).
Definition Size (fi : sqliteFileInfo) : Z := size fi.
Definition Mode (fi : sqliteFileInfo) : FileMode.t := mode fi.
Definition ModTime (fi : sqliteFileInfo) : Time.t := modTime fi.
Definition IsDir (fi : sqliteFileInfo) : bool := FileMode.IsDir (mode fi).

(** Read with a buffer of [n] bytes until [io.EOF]; [fuel] bounds the
    number of calls. *)
Fixpoint read_to_end (fuel : nat) (n : nat) (f : sqliteFile)
  : option (list Byte.byte) :=
  match fuel with
  | O => None
  | S fuel' =>
      match Read f n with
      | Panics _ => None
      | Returns (f', chunk, Some _) => Some chunk
      | Returns (f', chunk, None) =>
          match read_to_end fuel' n f' with
          | Some rest => Some (chunk ++ rest)
          | None => None
          end
      end
  end.

(** ** Notions the properties are stated with *)

(** The data source name [OpenDB] passes to [sql.Open]. *)
Definition dsn (s : SQLiteFS) : string := DBPath s ++ "?_journal=WAL".

(** The driver after one query on [h]. *)
Definition queried (d : Sql.Driver) (h : Sql.handle) (arg : string) : Sql.Driver :=
  Sql.mkDriver (Sql.next d) (Sql.closed d) (Sql.log d ++ [Sql.EvQuery h arg]).

(** What [Open] returns for what [Scan] gave. *)
Definition conclude (sc : Sql.scanned) : option sqliteFile * option error :=
  match sc with
  | Sql.Scanned content modified mode => (Some (materialize content modified mode), None)
  | Sql.ScanErr _ => (None, Some ErrNotExist)
  end.

(** The receiver's copy at the end of [Open]. *)
Definition copy_after (s : SQLiteFS) (sc : Sql.scanned) : SQLiteFS :=
  match sc with
  | Sql.ScanErr err => if is_ErrNoRows err then s else mkFS (DBPath s) None
  | Sql.Scanned _ _ _ => s
  end.

(** The handle the query of [Open] runs on: the one the instance holds,
    or else the one [sql.Open] hands out without an error. *)
Definition serving (env : Sql.Env) (st : state) (s : SQLiteFS) : option Sql.handle :=
  match db s with
  | Some h => Some h
  | None =>
      match Sql.open_db env, Sql.open_err env with
      | true, None => Some (Sql.next (driver st))
      | _, _ => None
      end
  end.

(** A handle answers when it has not been closed and is not faulty. *)
Definition answers (env : Sql.Env) (d : Sql.Driver) (h : Sql.handle) : Prop :=
  (h ∉ Sql.closed d) /\ Sql.fault env h = None.

(** A row is expired when [expired_at] is present and not after the
    clock. *)
Definition expired (clock : Z) (e : Sql.Entry) : Prop :=
  exists x, Sql.expired_at e = Some x /\ x <= clock.

(** The state and the value a computation ends with; the start state and
    [None] stand for a panic. *)
Definition state_after {A} (m : M A) (env : Sql.Env) (st : state) : state :=
  match m env st with
  | Returns (_, st') => st'
  | Panics _ => st
  end.

Definition value_of {A} (m : M A) (env : Sql.Env) (st : state) : option A :=
  match m env st with
  | Returns (a, _) => Some a
  | Panics _ => None
  end.

(** A path element: not empty and without a slash. *)
Definition plain (x : string) : Prop :=
  x <> "" /\ Forall (fun c => c <> Path.slash) (list_ascii_of_string x).

(** ** Worked states *)

Definition hello : list Byte.byte := list_byte_of_string "hello".

(** The row [/a.txt] with content [hello], modified at 1700000000 and
    mode 0644. *)
Definition a_txt : Sql.Entry :=
  Sql.mkEntry "/a.txt" (Some hello) (Some 1700000000) (Some 420) None.

(** A store that answers: [sql.Open] succeeds, no handle is faulty. *)
Definition healthy_env : Sql.Env :=
  Sql.mkEnv true None (fun _ => None) [a_txt] 1700000500.

(** [sql.Open] reports an error, and with it a nil [*DB]. *)
Definition failing_env : Sql.Env :=
  Sql.mkEnv false (Some "sql: unknown driver (forgotten import?)"%string)
            (fun _ => None) [a_txt] 1700000500.

(** [sql.Open] reports an error, and with it a [*DB] half made. *)
Definition partial_env : Sql.Env :=
  Sql.mkEnv true (Some "sqlite3: cannot allocate"%string) (fun _ => None) [a_txt] 1700000500.

(** One instance at address 0, before [Provision]. *)
Definition unprovisioned : state :=
  mkState {[ 0%nat := mkFS "/srv/files.db" None ]} (Sql.mkDriver 0%nat [] []).

(** The same instance after [Provision]: it holds handle 0. *)
Definition provisioned : state := state_after (Provision 0%nat) healthy_env unprovisioned.

(** Queries on handle 0 fail with an error that is not [sql.ErrNoRows];
    every other handle answers. *)
Definition broken_env : Sql.Env :=
  Sql.mkEnv true None
    (fun h => if (h =? 0)%nat then Some "disk I/O error"%string else None)
    [a_txt] 1700000500.

(** Two rows named [/a.txt]: the first expired at 5, the second without
    expiry; the clock is at 10. *)
Definition expired_a_txt : Sql.Entry :=
  Sql.mkEntry "/a.txt" (Some hello) None None (Some 5).

Definition renewed_env : Sql.Env :=
  Sql.mkEnv true None (fun _ => None)
    [expired_a_txt; Sql.mkEntry "/a.txt" (Some hello) None None None] 10.

(** A store whose only row, [/old.txt], expires at the very second of
    the clock. *)
Definition expired_env : Sql.Env :=
  Sql.mkEnv true None (fun _ => None)
    [Sql.mkEntry "/old.txt" (Some hello) None None (Some 1700000500)] 1700000500.

(** ** The rest of the life cycle, and calls in sequence *)

(** [db.Close()] with its result: [reply] is the error the package finds
    when it closes the connections; a [*DB] closed before returns nil at
    once. *)
Definition db_Close_result (h : Sql.handle) (reply : option error) : M (option error) :=
  fun env st =>
    let err := if bool_decide (h ∈ Sql.closed (driver st)) then None else reply in
    match db_Close (Some h) env st with
    | Returns (_, st') => Returns (err, st')
    | Panics msg => Panics msg
    end.

(** [func (s SQLiteFS) Cleanup() error]; the receiver is passed by
    value. *)
Definition Cleanup (recv : SQLiteFS) (reply : option error) : M (option error) :=
  s ← alloc recv;
  this ← load s;
  match db this with
  | Some h => db_Close_result h reply
  | None => mret None
  end.

(** A call [p.Cleanup()] through a pointer. *)
Definition Cleanup_at (p : loc) (reply : option error) : M (option error) :=
  recv ← load p;
  Cleanup recv reply.

(** Calls [p.Open(name)] one after the other, each in the environment of
    its moment; the results in order. *)
Fixpoint Opens (p : loc) (calls : list (Sql.Env * string)) (st : state)
  : outcome (list (option sqliteFile * option error) * state) :=
  match calls with
  | [] => Returns ([], st)
  | (env, arg) :: rest =>
      match Open_at p arg env st with
      | Panics msg => Panics msg
      | Returns (r, st1) =>
          match Opens p rest st1 with
          | Panics msg => Panics msg
          | Returns (rs, st2) => Returns (r :: rs, st2)
          end
      end
  end.

(** The replies of [sql.Open] with which [OpenDB] has something to
    close or nothing to close: a [*DB] came back, or no error did. The
    reply left out is an error with a nil [*DB], as [database/sql] gives
    for a driver that is not registered; the module imports its driver
    and so registers it. *)
Definition open_replies (env : Sql.Env) : Prop :=
  Sql.open_db env = true \/ Sql.open_err env = None.

(** The bytes of a file not read yet. *)
Definition remaining (f : sqliteFile) : list Byte.byte :=
  match reader f with
  | Some b => skipn (Buffer.off b) (Buffer.buf b)
  | None => []
  end.

(** Calls [f.Read(p)] one after the other with buffers of the sizes
    [ns], whatever error each returns; all the bytes read, in order. *)
Fixpoint Reads (ns : list nat) (f : sqliteFile) : outcome (sqliteFile * list Byte.byte) :=
  match ns with
  | [] => Returns (f, [])
  | n :: rest =>
      match Read f n with
      | Panics msg => Panics msg
      | Returns (f1, chunk, _) =>
          match Reads rest f1 with
          | Panics msg => Panics msg
          | Returns (f2, more) => Returns (f2, chunk ++ more)
          end
      end
  end.

(** A directory row: mode [-2147483648 + 0755]. *)
Definition dir_env : Sql.Env :=
  Sql.mkEnv true None (fun _ => None)
    [a_txt; Sql.mkEntry "/pub" None None (Some (- 2^31 + 493)) None] 1700000500.

(** A row modified at the epoch, a row without [modified], and a row
    whose mode does not fit 32 bits. *)
Definition edge_env : Sql.Env :=
  Sql.mkEnv true None (fun _ => None)
    [Sql.mkEntry "/epoch.txt" None (Some 0) None None;
     Sql.mkEntry "/undated.txt" None None None None;
     Sql.mkEntry "/bad-mode.txt" (Some hello) None (Some (2^31)) None;
     a_txt] 1700000500.

(** [/old.txt] expired at 1700000500; a day later it is still not
    found. *)
Definition later_env : Sql.Env :=
  Sql.mkEnv true None (fun _ => None) (Sql.files expired_env) (1700000500 + 86400).

(** * Properties *)

(** ** Fixed-width arithmetic, time and modes *)

Lemma in_int64_range z : Int.in_int64 z = true <-> - 2^63 <= z < 2^63.
Proof. unfold Int.in_int64. rewrite andb_true_iff, Z.leb_le, Z.ltb_lt. tauto. Qed.

Lemma in_int32_range z : Int.in_int32 z = true <-> - 2^31 <= z < 2^31.
Proof. unfold Int.in_int32. rewrite andb_true_iff, Z.leb_le, Z.ltb_lt. tauto. Qed.

Lemma wrap64_small z : - 2^63 <= z < 2^63 -> Int.wrap64 z = z.
Proof. intros Hz. unfold Int.wrap64. rewrite Z.mod_small; lia. Qed.

Lemma wrap64_add_wrap a b : Int.wrap64 (Int.wrap64 a + b) = Int.wrap64 (a + b).
Proof.
  unfold Int.wrap64. f_equal.
  replace ((a + 2^63) mod 2^64 - 2^63 + b + 2^63) with ((a + 2^63) mod 2^64 + b) by lia.
  rewrite Zplus_mod_idemp_l. f_equal. lia.
Qed.

(** Seconds survive [time.Unix] followed by [Time.Unix()], also where the
    sum inside overflows. *)
Lemma Time_unix_Unix sec : - 2^63 <= sec < 2^63 -> Time.unix (Time.Unix sec) = sec.
Proof.
  intros Hs. unfold Time.unix, Time.Unix, Time.internalToUnix. simpl.
  rewrite wrap64_add_wrap.
  replace (sec + Time.unixToInternal + - Time.unixToInternal) with sec by lia.
  by apply wrap64_small.
Qed.

Lemma FileMode_of_int32_nonneg d : 0 <= d < 2^31 -> FileMode.of_int32 d = d.
Proof.
  intros Hd. unfold FileMode.of_int32, Int.to_uint32. apply Z.mod_small. lia.
Qed.

(** The conversion keeps the 32 bits of the stored mode. *)
Lemma FileMode_of_int32_bits d i :
  0 <= i < 32 -> Z.testbit (FileMode.of_int32 d) i = Z.testbit d i.
Proof.
  intros Hi. unfold FileMode.of_int32, Int.to_uint32.
  change (2^32) with (2^32)%Z. rewrite Z.mod_pow2_bits_low; [done | lia].
Qed.

Lemma FileMode_of_int32_range d : 0 <= FileMode.of_int32 d < 2^32.
Proof. unfold FileMode.of_int32, Int.to_uint32. apply Z.mod_pos_bound. lia. Qed.

(** ** Reading a file to its end *)

Lemma read_to_end_from (fuel n : nat) (b : Buffer.t) (i : sqliteFileInfo) :
  (0 < n)%nat ->
  (length (Buffer.buf b) - Buffer.off b < fuel)%nat ->
  read_to_end fuel n (mkFile (Some b) i) = Some (skipn (Buffer.off b) (Buffer.buf b)).
Proof.
  revert b. induction fuel as [|fuel IH]; intros [buf off] Hn Hfuel; simpl in *; [lia|].
  unfold Read, Buffer.Read, Buffer.empty. simpl.
  destruct (Nat.leb_spec (length buf) off) as [Hle|Hlt].
  - destruct (Nat.eqb_spec n 0) as [->|_]; [lia|].
    by rewrite skipn_all2.
  - set (chunk := firstn n (skipn off buf)).
    assert (Hlen : length chunk = Nat.min n (length buf - off)).
    { subst chunk. by rewrite length_take, length_drop. }
    rewrite IH; [|done|simpl; lia].
    simpl. f_equal. rewrite Hlen. subst chunk.
    transitivity (firstn n (skipn off buf) ++ skipn n (skipn off buf));
      [|apply firstn_skipn].
    f_equal. rewrite skipn_skipn.
    destruct (Nat.min_spec n (length buf - off)) as [[? ->]|[? ->]].
    + f_equal. lia.
    + rewrite !skipn_all2; [done| |]; rewrite ?length_drop; lia.
Qed.

(** A file just built holds its content whole. *)
Lemma read_to_end_materialize (fuel n : nat) content modified mode :
  (0 < n)%nat -> (length content < fuel)%nat ->
  read_to_end fuel n (materialize content modified mode) = Some content.
Proof.
  intros Hn Hfuel.
  assert (E : materialize content modified mode =
              mkFile (Some (Buffer.NewBuffer content))
                     (info (materialize content modified mode))).
  { unfold materialize. by destruct modified, mode. }
  rewrite E. rewrite read_to_end_from; simpl; [done|done|lia].
Qed.

(** ** The connection: [OpenDB] *)

Ltac unfold_M :=
  unfold Open_at, Open, Open_body, Provision, OpenDB, sql_Open, db_Close,
    db_QueryRow_Scan, load, store_db, alloc, mbind, mret, M_bind, M_ret in *.

Ltac run_heap :=
  repeat first [rewrite lookup_insert_eq | rewrite insert_insert_eq | progress simpl].

(** With a handle held [OpenDB] returns at once. *)
Lemma OpenDB_held env st p s h :
  heap st !! p = Some s -> db s = Some h ->
  OpenDB p env st = Returns (tt, st).
Proof. intros Hp Hdb. unfold_M. by rewrite Hp, Hdb. Qed.

(** Without one it calls [sql.Open]; when no error comes back the field
    is set to what came back. *)
Lemma OpenDB_opens env st p s :
  heap st !! p = Some s -> db s = None -> Sql.open_err env = None ->
  OpenDB p env st =
    Returns (tt, mkState
      (<[p := mkFS (DBPath s)
                (if Sql.open_db env then Some (Sql.next (driver st)) else None)]> (heap st))
      (fst (Sql.Open env "sqlite3" (dsn s) (driver st)))).
Proof.
  intros Hp Hdb Herr. unfold_M. rewrite Hp, Hdb. unfold Sql.Open, dsn.
  rewrite Herr. destruct (Sql.open_db env); simpl; by rewrite Hp.
Qed.

(** An error that comes with a [*DB]: the [*DB] is closed and the field
    stays nil. *)
Lemma OpenDB_failure_with_db env st p s msg :
  heap st !! p = Some s -> db s = None ->
  Sql.open_db env = true -> Sql.open_err env = Some msg ->
  OpenDB p env st =
    Returns (tt, mkState
      (<[p := mkFS (DBPath s) None]> (heap st))
      (Sql.mkDriver (S (Sql.next (driver st)))
         (Sql.next (driver st) :: Sql.closed (driver st))
         (Sql.log (driver st) ++ [Sql.EvOpen "sqlite3" (dsn s); Sql.EvClose (Sql.next (driver st))]))).
Proof.
  intros Hp Hdb Hopen Herr. unfold_M. rewrite Hp, Hdb. unfold Sql.Open, dsn.
  rewrite Hopen, Herr. simpl. rewrite Hp. by rewrite <- app_assoc.
Qed.

(** An error that comes with a nil [*DB], as [sql.Open] reports its
    errors: [db.Close()] is called on nil. *)
Lemma OpenDB_failure_nil_db env st p s msg :
  heap st !! p = Some s -> db s = None ->
  Sql.open_db env = false -> Sql.open_err env = Some msg ->
  OpenDB p env st = Panics nil_deref.
Proof.
  intros Hp Hdb Hopen Herr. unfold_M. rewrite Hp, Hdb. unfold Sql.Open.
  by rewrite Hopen, Herr.
Qed.

(** [OpenDB] writes to its receiver only, and frees nothing. *)
Lemma OpenDB_frame env st p st' q :
  OpenDB p env st = Returns (tt, st') -> q <> p -> heap st' !! q = heap st !! q.
Proof.
  intros H Hq. unfold_M.
  destruct (heap st !! p) as [s|] eqn:Hp; [|done].
  destruct (db s); [by inversion H|].
  unfold Sql.Open in H.
  destruct (Sql.open_db env), (Sql.open_err env); simpl in H;
    rewrite ?Hp in H; inversion H; subst; simpl; by rewrite lookup_insert_ne.
Qed.

Lemma OpenDB_receiver env st p st' :
  OpenDB p env st = Returns (tt, st') ->
  exists s s', heap st !! p = Some s /\ heap st' !! p = Some s' /\ DBPath s' = DBPath s.
Proof.
  intros H. unfold_M.
  destruct (heap st !! p) as [s|] eqn:Hp; [|done].
  exists s. destruct (db s) eqn:Hdb.
  { inversion H; subst. by exists s. }
  unfold Sql.Open in H.
  destruct (Sql.open_db env), (Sql.open_err env); simpl in H;
    rewrite ?Hp in H; inversion H; subst; simpl;
    eexists; (split; [done|]); by rewrite lookup_insert_eq.
Qed.

Example provisioned_holds_handle :
  heap provisioned !! 0%nat = Some (mkFS "/srv/files.db" (Some 0%nat)).
Proof. vm_compute. reflexivity. Qed.

(** C9. [OpenDB] is idempotent: with a handle held it changes nothing,
    neither the instance nor [database/sql]; and whenever one call leaves
    a handle held, a second call in succession leaves the state of the
    first. *)
Theorem OpenDB_idempotent env st p s :
  heap st !! p = Some s ->
  (is_Some (db s) -> OpenDB p env st = Returns (tt, st)) /\
  (forall st1 s1,
     OpenDB p env st = Returns (tt, st1) ->
     heap st1 !! p = Some s1 -> is_Some (db s1) ->
     (OpenDB p;; OpenDB p) env st = Returns (tt, st1)).
Proof.
  intros Hp. split.
  - intros [h Hh]. by apply (OpenDB_held env st p s h).
  - intros st1 s1 H1 Hp1 [h Hh].
    change ((OpenDB p;; OpenDB p) env st) with
      (match OpenDB p env st with
       | Returns (_, st') => OpenDB p env st'
       | Panics msg => Panics msg
       end).
    rewrite H1. by apply (OpenDB_held env st1 p s1 h).
Qed.

(** From the instance before [Provision]: the first call opens handle 0,
    the second changes nothing. *)
Lemma OpenDB_idempotent_witness :
  OpenDB 0%nat healthy_env provisioned = Returns (tt, provisioned) /\
  (OpenDB 0%nat;; OpenDB 0%nat) healthy_env unprovisioned = Returns (tt, provisioned).
Proof.
  assert (Hp : heap provisioned !! 0%nat = Some (mkFS "/srv/files.db" (Some 0%nat)))
    by (vm_compute; reflexivity).
  assert (Hu : heap unprovisioned !! 0%nat = Some (mkFS "/srv/files.db" None))
    by (vm_compute; reflexivity).
  split.
  - apply (proj1 (OpenDB_idempotent healthy_env provisioned 0%nat _ Hp)).
    simpl. eauto.
  - apply (proj2 (OpenDB_idempotent healthy_env unprovisioned 0%nat _ Hu)
             provisioned (mkFS "/srv/files.db" (Some 0%nat))).
    + vm_compute. reflexivity.
    + exact Hp.
    + simpl. eauto.
Defined.



(** ** The lookup: [Open] *)

Lemma QueryRowScan_driver env h arg d :
  fst (Sql.QueryRowScan env h arg d) = queried d h arg.
Proof.
  unfold Sql.QueryRowScan, queried.
  destruct (bool_decide _); [done|].
  destruct (Sql.fault env h); [done|]. by destruct (Sql.select env arg).
Qed.

(** [Open] on an instance that holds a handle: one query on that handle,
    and nothing but the copy of the receiver is written. *)
Lemma Open_at_held env st p s h arg :
  heap st !! p = Some s -> db s = Some h ->
  Open_at p arg env st =
    let sc := snd (Sql.QueryRowScan env h arg (driver st)) in
    Returns (conclude sc,
             mkState (<[fresh (dom (heap st)) := copy_after s sc]> (heap st))
                     (queried (driver st) h arg)).
Proof.
  intros Hp Hdb. rewrite <- (QueryRowScan_driver env).
  unfold_M. rewrite Hp. simpl. rewrite lookup_insert_eq, Hdb. simpl.
  rewrite lookup_insert_eq, Hdb. simpl.
  destruct (Sql.QueryRowScan env h arg (driver st)) as [d [c m md|err]]; simpl.
  - done.
  - destruct err; simpl; rewrite ?lookup_insert_eq, ?insert_insert_eq; done.
Qed.

(** [Open] on an instance without a handle, when [sql.Open] gives one:
    the handle goes to the copy of the receiver and is queried there. *)
Lemma Open_at_unopened env st p s arg :
  heap st !! p = Some s -> db s = None ->
  Sql.open_db env = true -> Sql.open_err env = None ->
  Open_at p arg env st =
    let h := Sql.next (driver st) in
    let d1 := fst (Sql.Open env "sqlite3" (dsn s) (driver st)) in
    let sc := snd (Sql.QueryRowScan env h arg d1) in
    Returns (conclude sc,
             mkState (<[fresh (dom (heap st)) := copy_after (mkFS (DBPath s) (Some h)) sc]> (heap st))
                     (queried d1 h arg)).
Proof.
  intros Hp Hdb Hopen Herr. simpl. rewrite <- (QueryRowScan_driver env).
  unfold_M. rewrite Hp. simpl. rewrite lookup_insert_eq, Hdb.
  unfold Sql.Open, dsn. rewrite Hopen, Herr. simpl.
  run_heap.
  destruct (Sql.QueryRowScan env (Sql.next (driver st)) arg _) as [d [c m md|err]]; simpl.
  - done.
  - destruct err; simpl; rewrite ?lookup_insert_eq, ?insert_insert_eq; done.
Qed.

(** ... when [sql.Open] gives neither a handle nor an error. *)
Lemma Open_at_unopened_nil env st p s arg :
  heap st !! p = Some s -> db s = None ->
  Sql.open_db env = false -> Sql.open_err env = None ->
  Open_at p arg env st =
    Returns ((None, Some ErrNotExist),
             mkState (<[fresh (dom (heap st)) := mkFS (DBPath s) None]> (heap st))
                     (fst (Sql.Open env "sqlite3" (dsn s) (driver st)))).
Proof.
  intros Hp Hdb Hopen Herr.
  unfold_M. rewrite Hp. simpl. rewrite lookup_insert_eq, Hdb.
  unfold Sql.Open, dsn. rewrite Hopen, Herr. simpl.
  by run_heap.
Qed.

(** ... when [sql.Open] gives an error and a handle. *)
Lemma Open_at_open_failure_with_db env st p s msg arg :
  heap st !! p = Some s -> db s = None ->
  Sql.open_db env = true -> Sql.open_err env = Some msg ->
  exists d,
    Open_at p arg env st =
      Returns ((None, Some ErrNotExist),
               mkState (<[fresh (dom (heap st)) := mkFS (DBPath s) None]> (heap st)) d).
Proof.
  intros Hp Hdb Hopen Herr.
  unfold_M. rewrite Hp. simpl. rewrite lookup_insert_eq, Hdb.
  unfold Sql.Open, dsn. rewrite Hopen, Herr. simpl.
  run_heap. by eexists.
Qed.

(** ... when [sql.Open] gives an error and no handle. *)
Lemma Open_at_open_failure_nil_db env st p s msg arg :
  heap st !! p = Some s -> db s = None ->
  Sql.open_db env = false -> Sql.open_err env = Some msg ->
  Open_at p arg env st = Panics nil_deref.
Proof.
  intros Hp Hdb Hopen Herr.
  unfold_M. rewrite Hp. simpl. rewrite lookup_insert_eq, Hdb.
  unfold Sql.Open. by rewrite Hopen, Herr.
Qed.

(** Whenever [Open] returns, it has written one new cell, the copy of
    its receiver, and no other. *)
Lemma Open_at_heap env st p arg r st' :
  Open_at p arg env st = Returns (r, st') ->
  exists s c, heap st !! p = Some s /\
              heap st' = <[fresh (dom (heap st)) := c]> (heap st) /\
              DBPath c = DBPath s.
Proof.
  intros H.
  destruct (heap st !! p) as [s|] eqn:Hp;
    [|unfold_M; by rewrite Hp in H].
  exists s. destruct (db s) as [h|] eqn:Hdb.
  - rewrite (Open_at_held _ _ _ _ _ _ Hp Hdb) in H. simpl in H.
    inversion H; subst; simpl. eexists. split; [done|split; [done|]].
    unfold copy_after. destruct (snd _) as [| []]; done.
  - destruct (Sql.open_db env) eqn:Hopen, (Sql.open_err env) as [msg|] eqn:Herr.
    + destruct (Open_at_open_failure_with_db _ _ _ _ _ arg Hp Hdb Hopen Herr) as [d Hd].
      rewrite Hd in H. inversion H; subst; simpl. by eexists.
    + rewrite (Open_at_unopened _ _ _ _ _ Hp Hdb Hopen Herr) in H. simpl in H.
      inversion H; subst; simpl. eexists. split; [done|split; [done|]].
      unfold copy_after. destruct (snd _) as [| []]; done.
    + by rewrite (Open_at_open_failure_nil_db _ _ _ _ _ arg Hp Hdb Hopen Herr) in H.
    + rewrite (Open_at_unopened_nil _ _ _ _ _ Hp Hdb Hopen Herr) in H.
      inversion H; subst; simpl. by eexists.
Qed.

(** [Open] writes to no cell that was there before the call. *)
Lemma Open_at_frame env st p arg r st' q s :
  Open_at p arg env st = Returns (r, st') ->
  heap st !! q = Some s -> heap st' !! q = Some s.
Proof.
  intros H Hq. destruct (Open_at_heap _ _ _ _ _ _ H) as (_ & c & _ & Hheap & _).
  rewrite Hheap, lookup_insert_ne; [done|].
  intros Heq. apply (is_fresh (dom (heap st))). rewrite Heq.
  apply elem_of_dom. eauto.
Qed.

(** Whenever [Open] returns, it returns a file and no error, or no file
    and [fs.ErrNotExist]. *)
Lemma Open_at_results env st p arg f err st' :
  Open_at p arg env st = Returns ((f, err), st') ->
  (f = None /\ err = Some ErrNotExist) \/ (is_Some f /\ err = None).
Proof.
  intros H.
  destruct (heap st !! p) as [s|] eqn:Hp;
    [|unfold_M; by rewrite Hp in H].
  destruct (db s) as [h|] eqn:Hdb.
  - rewrite (Open_at_held _ _ _ _ _ _ Hp Hdb) in H. simpl in H.
    destruct (snd _); inversion H; subst; [right|left]; eauto.
  - destruct (Sql.open_db env) eqn:Hopen, (Sql.open_err env) as [msg|] eqn:Herr.
    + destruct (Open_at_open_failure_with_db _ _ _ _ _ arg Hp Hdb Hopen Herr) as [d Hd].
      rewrite Hd in H. inversion H; subst. by left.
    + rewrite (Open_at_unopened _ _ _ _ _ Hp Hdb Hopen Herr) in H. simpl in H.
      destruct (snd _); inversion H; subst; [right|left]; eauto.
    + by rewrite (Open_at_open_failure_nil_db _ _ _ _ _ arg Hp Hdb Hopen Herr) in H.
    + rewrite (Open_at_unopened_nil _ _ _ _ _ Hp Hdb Hopen Herr) in H.
      inversion H; subst. by left.
Qed.

(** [Open] panics in one case only: the instance holds no handle and
    [sql.Open] reports an error without a handle. *)
Lemma Open_at_panics env st p s arg msg :
  heap st !! p = Some s ->
  Open_at p arg env st = Panics msg ->
  db s = None /\ Sql.open_db env = false /\ is_Some (Sql.open_err env).
Proof.
  intros Hp H.
  destruct (db s) as [h|] eqn:Hdb.
  - by rewrite (Open_at_held _ _ _ _ _ _ Hp Hdb) in H.
  - destruct (Sql.open_db env) eqn:Hopen, (Sql.open_err env) as [m|] eqn:Herr.
    + destruct (Open_at_open_failure_with_db _ _ _ _ _ arg Hp Hdb Hopen Herr) as [d Hd].
      by rewrite Hd in H.
    + by rewrite (Open_at_unopened _ _ _ _ _ Hp Hdb Hopen Herr) in H.
    + eauto.
    + by rewrite (Open_at_unopened_nil _ _ _ _ _ Hp Hdb Hopen Herr) in H.
Qed.

(** ** The receiver of [Open] is a copy *)

(** C10. [Open] takes its receiver by value: whenever a call
    [p.Open(name)] returns, the instance at [p] is what it was before the
    call, [db] field included, and so is every other instance in memory. A
    handle opened inside the call, or the nil written after a failed
    query, lives in the copy of the receiver only. *)
Theorem Open_leaves_instance_unchanged env st p arg r st' :
  Open_at p arg env st = Returns (r, st') ->
  heap st' !! p = heap st !! p /\
  (forall q s, heap st !! q = Some s -> heap st' !! q = Some s).
Proof.
  intros H. split.
  - destruct (Open_at_heap _ _ _ _ _ _ H) as (s & _ & Hp & _).
    rewrite Hp. by apply (Open_at_frame _ _ _ _ _ _ _ _ H).
  - intros q s Hq. by apply (Open_at_frame _ _ _ _ _ _ _ _ H).
Qed.

(** The instance starts without a handle, [Open] opens one and serves the
    file, and the instance still has none afterwards. *)
Lemma Open_leaves_instance_unchanged_witness :
  value_of (Open_at 0%nat "/a.txt") healthy_env unprovisioned
    = Some (Some (materialize hello (Some 1700000000) (Some 420)), None) /\
  Sql.log (driver (state_after (Open_at 0%nat "/a.txt") healthy_env unprovisioned))
    = [Sql.EvOpen "sqlite3" "/srv/files.db?_journal=WAL"; Sql.EvQuery 0%nat "/a.txt"] /\
  heap (state_after (Open_at 0%nat "/a.txt") healthy_env unprovisioned) !! 0%nat
    = Some (mkFS "/srv/files.db" None).
Proof.
  split; [vm_compute; reflexivity|]. split; [vm_compute; reflexivity|].
  transitivity (heap unprovisioned !! 0%nat); [|vm_compute; reflexivity].
  assert (H : Open_at 0%nat "/a.txt" healthy_env unprovisioned =
              Returns ((Some (materialize hello (Some 1700000000) (Some 420)), None),
                       state_after (Open_at 0%nat "/a.txt") healthy_env unprovisioned))
    by (vm_compute; reflexivity).
  exact (proj1 (Open_leaves_instance_unchanged _ _ _ _ _ _ H)).
Defined.


(** On an instance that holds [h], a query failure other than
    [sql.ErrNoRows] clears the handle in the copy of the receiver; the
    instance keeps [h], and the next [Open] queries [h] again without a
    call of [sql.Open]. *)
Lemma Open_at_query_failure env st p s h arg msg :
  heap st !! p = Some s -> db s = Some h ->
  snd (Sql.QueryRowScan env h arg (driver st)) = Sql.ScanErr (ErrOther msg) ->
  let st1 := state_after (Open_at p arg) env st in
  Open_at p arg env st = Returns ((None, Some ErrNotExist), st1) /\
  heap st1 !! fresh (dom (heap st)) = Some (mkFS (DBPath s) None) /\
  heap st1 !! p = Some s /\
  forall env2 arg2,
    driver (state_after (Open_at p arg2) env2 st1) =
      queried (queried (driver st) h arg) h arg2.
Proof.
  intros Hp Hdb Hq st1.
  pose proof (Open_at_held env st p s h arg Hp Hdb) as H1.
  cbv zeta in H1. rewrite Hq in H1. simpl in H1.
  assert (Hst1 : st1 = mkState (<[fresh (dom (heap st)) := mkFS (DBPath s) None]> (heap st))
                               (queried (driver st) h arg)).
  { subst st1. unfold state_after. by rewrite H1. }
  assert (Hp1 : heap st1 !! p = Some s).
  { rewrite Hst1. by apply (Open_at_frame _ _ _ _ _ _ _ _ H1). }
  split; [by rewrite Hst1|].
  split; [by rewrite Hst1; simpl; rewrite lookup_insert_eq|].
  split; [done|].
  intros env2 arg2. unfold state_after.
  rewrite (Open_at_held env2 st1 p s h arg2 Hp1 Hdb). cbv zeta. simpl.
  by rewrite Hst1.
Qed.

(** C1. On an instance that holds handle 0, a query failure makes [Open]
    set [db] to nil in its copy of the receiver only. The instance keeps
    handle 0, the next [Open] calls [sql.Open] not at all and queries
    handle 0 again, and returns [fs.ErrNotExist] although a handle opened
    afresh would have served the row. *)
Theorem Open_query_failure_not_invalidated :
  let st1 := state_after (Open_at 0%nat "/a.txt") broken_env provisioned in
  let st2 := state_after (Open_at 0%nat "/a.txt") broken_env st1 in
  value_of (Open_at 0%nat "/a.txt") broken_env provisioned = Some (None, Some ErrNotExist) /\
  heap st1 !! 1%nat = Some (mkFS "/srv/files.db" None) /\
  heap st1 !! 0%nat = Some (mkFS "/srv/files.db" (Some 0%nat)) /\
  value_of (Open_at 0%nat "/a.txt") broken_env st1 = Some (None, Some ErrNotExist) /\
  Sql.log (driver st2) =
    [Sql.EvOpen "sqlite3" "/srv/files.db?_journal=WAL";
     Sql.EvQuery 0%nat "/a.txt"; Sql.EvQuery 0%nat "/a.txt"] /\
  snd (Sql.QueryRowScan broken_env (Sql.next (driver st1)) "/a.txt" (driver st1)) =
    Sql.Scanned hello (Some 1700000000) (Some 420).
Proof. repeat split; vm_compute; reflexivity. Qed.

(** ** Which handle [Open] queries *)

Lemma QueryRowScan_closed env h arg d1 d2 :
  Sql.closed d1 = Sql.closed d2 ->
  snd (Sql.QueryRowScan env h arg d1) = snd (Sql.QueryRowScan env h arg d2).
Proof.
  intros Hc. unfold Sql.QueryRowScan. rewrite Hc.
  destruct (bool_decide _); [done|].
  destruct (Sql.fault env h); [done|]. by destruct (Sql.select env arg).
Qed.

(** On a handle that answers, the scan is the decoded selected row, or
    [sql.ErrNoRows]. *)
Lemma QueryRowScan_answers env h arg d :
  answers env d h ->
  snd (Sql.QueryRowScan env h arg d) =
    match Sql.select env arg with
    | Some e => Sql.decode e
    | None => Sql.ScanErr ErrNoRows
    end.
Proof.
  intros [Hc Hf]. unfold Sql.QueryRowScan.
  rewrite bool_decide_eq_false_2 by done. rewrite Hf.
  by destruct (Sql.select env arg).
Qed.

(** [Open] returns what the scan on the serving handle gives. *)
Lemma Open_at_value env st p s h arg :
  heap st !! p = Some s -> serving env st s = Some h ->
  value_of (Open_at p arg) env st =
    Some (conclude (snd (Sql.QueryRowScan env h arg (driver st)))).
Proof.
  intros Hp Hs. unfold serving in Hs. unfold value_of.
  destruct (db s) as [h'|] eqn:Hdb.
  - injection Hs as ->. by rewrite (Open_at_held _ _ _ _ _ _ Hp Hdb).
  - destruct (Sql.open_db env) eqn:Hopen; [|done].
    destruct (Sql.open_err env) eqn:Herr; [done|]. injection Hs as <-.
    rewrite (Open_at_unopened _ _ _ _ _ Hp Hdb Hopen Herr). cbv zeta.
    do 2 f_equal. apply QueryRowScan_closed.
    unfold Sql.Open. by rewrite Hopen.
Qed.

Lemma value_of_Returns {A} (m : M A) env st a :
  value_of m env st = Some a -> exists st', m env st = Returns (a, st').
Proof.
  unfold value_of. destruct (m env st) as [[a' st']|]; [|done].
  intros [= <-]. by exists st'.
Qed.

(** C2. Whatever the name and whatever goes wrong inside, [Open] returns,
    and what it returns is no file with [fs.ErrNotExist], or a file with a
    nil error. Cause by cause: no handle after [OpenDB] (none came from
    [sql.Open], or it came with an error and was closed); a query on a
    handle that is closed or faulty, as that of a database that cannot be
    opened; no row of that name that is visible; a row that does not
    scan: each gives [fs.ErrNotExist] and no file. A row that scans gives
    the file built from it and a nil error. This is for the replies
    [open_replies]; the driver being registered, [sql.Open] has no
    other. *)
Theorem Open_file_or_not_exist env st p s arg :
  heap st !! p = Some s -> open_replies env ->
  exists r st',
    Open_at p arg env st = Returns (r, st') /\
    (r = (None, Some ErrNotExist) \/ exists f, r = (Some f, None)) /\
    (serving env st s = None -> r = (None, Some ErrNotExist)) /\
    (forall h, serving env st s = Some h ->
       (h ∈ Sql.closed (driver st) \/ is_Some (Sql.fault env h) ->
        r = (None, Some ErrNotExist)) /\
       (answers env (driver st) h -> Sql.select env arg = None ->
        r = (None, Some ErrNotExist)) /\
       (answers env (driver st) h ->
        forall e err, Sql.select env arg = Some e -> Sql.decode e = Sql.ScanErr err ->
        r = (None, Some ErrNotExist)) /\
       (answers env (driver st) h ->
        forall e c m d, Sql.select env arg = Some e -> Sql.decode e = Sql.Scanned c m d ->
        r = (Some (materialize c m d), None))).
Proof.
  intros Hp Hreply.
  destruct (serving env st s) as [h|] eqn:Hs.
  - pose proof (Open_at_value env st p s h arg Hp Hs) as Hval.
    destruct (value_of_Returns _ _ _ _ Hval) as [st' HO].
    eexists _, st'. split; [exact HO|].
    split; [destruct (snd _) as [c m d|e]; simpl; eauto|].
    split; [done|]. intros h' [= <-].
    split; [|split; [|split]].
    + intros [Hc|[msg Hf]]; unfold Sql.QueryRowScan.
      * by rewrite bool_decide_eq_true_2.
      * destruct (bool_decide _); [done|]. by rewrite Hf.
    + intros Ha Hnone. by rewrite (QueryRowScan_answers _ _ _ _ Ha), Hnone.
    + intros Ha e err Hsel Hdec. by rewrite (QueryRowScan_answers _ _ _ _ Ha), Hsel, Hdec.
    + intros Ha e c m d Hsel Hdec. by rewrite (QueryRowScan_answers _ _ _ _ Ha), Hsel, Hdec.
  - unfold serving in Hs. destruct (db s) as [h|] eqn:Hdb; [done|].
    destruct (Sql.open_db env) eqn:Hopen, (Sql.open_err env) as [msg|] eqn:Herr;
      try done.
    + destruct (Open_at_open_failure_with_db env st p s msg arg Hp Hdb Hopen Herr) as [d Hd].
      eexists _, _. split; [exact Hd|]. split; [by left|]. split; [done|]. by intros h [=].
    + destruct Hreply as [?|Hn]; congruence.
    + pose proof (Open_at_unopened_nil env st p s arg Hp Hdb Hopen Herr) as HO.
      eexists _, _. split; [exact HO|]. split; [by left|]. split; [done|]. by intros h [=].
Qed.

(** Not found: a name without a row, an expired row, a faulty handle, a
    mode that does not fit, an error from [sql.Open]. Found: [/a.txt]. *)
Lemma Open_file_or_not_exist_witness :
  value_of (Open_at 0%nat "/missing.txt") healthy_env provisioned = Some (None, Some ErrNotExist) /\
  value_of (Open_at 0%nat "/old.txt") expired_env unprovisioned = Some (None, Some ErrNotExist) /\
  value_of (Open_at 0%nat "/a.txt") broken_env provisioned = Some (None, Some ErrNotExist) /\
  value_of (Open_at 0%nat "/bad-mode.txt") edge_env provisioned = Some (None, Some ErrNotExist) /\
  value_of (Open_at 0%nat "/a.txt") partial_env unprovisioned = Some (None, Some ErrNotExist) /\
  value_of (Open_at 0%nat "/a.txt") healthy_env unprovisioned
    = Some (Some (materialize hello (Some 1700000000) (Some 420)), None).
Proof.
  assert (Hu : heap unprovisioned !! 0%nat = Some (mkFS "/srv/files.db" None))
    by (vm_compute; reflexivity).
  assert (Hp : heap provisioned !! 0%nat = Some (mkFS "/srv/files.db" (Some 0%nat)))
    by (vm_compute; reflexivity).
  assert (Hap : forall env, Sql.fault env 0%nat = None -> answers env (driver provisioned) 0%nat).
  { intros env Hf. split; [vm_compute; apply not_elem_of_nil|exact Hf]. }
  assert (Hau : forall env, Sql.fault env 0%nat = None -> answers env (driver unprovisioned) 0%nat).
  { intros env Hf. split; [vm_compute; apply not_elem_of_nil|exact Hf]. }
  split; [|split; [|split; [|split; [|split]]]].
  - destruct (Open_file_or_not_exist healthy_env provisioned 0%nat _ "/missing.txt" Hp)
      as (r & st' & HO & _ & _ & Hh); [by left|].
    destruct (Hh 0%nat eq_refl) as (_ & Hnone & _).
    unfold value_of. rewrite HO. f_equal. apply Hnone; [by apply Hap|reflexivity].
  - destruct (Open_file_or_not_exist expired_env unprovisioned 0%nat _ "/old.txt" Hu)
      as (r & st' & HO & _ & _ & Hh); [by left|].
    destruct (Hh 0%nat eq_refl) as (_ & Hnone & _).
    unfold value_of. rewrite HO. f_equal. apply Hnone; [by apply Hau|reflexivity].
  - destruct (Open_file_or_not_exist broken_env provisioned 0%nat _ "/a.txt" Hp)
      as (r & st' & HO & _ & _ & Hh); [by left|].
    destruct (Hh 0%nat eq_refl) as (Hfail & _).
    unfold value_of. rewrite HO. f_equal. apply Hfail. right. simpl. eauto.
  - destruct (Open_file_or_not_exist edge_env provisioned 0%nat _ "/bad-mode.txt" Hp)
      as (r & st' & HO & _ & _ & Hh); [by left|].
    destruct (Hh 0%nat eq_refl) as (_ & _ & Hbad & _).
    unfold value_of. rewrite HO. f_equal.
    eapply Hbad; [by apply Hap|reflexivity|vm_compute; reflexivity].
  - destruct (Open_file_or_not_exist partial_env unprovisioned 0%nat _ "/a.txt" Hu)
      as (r & st' & HO & _ & Hnone & _); [by left|].
    unfold value_of. rewrite HO. f_equal. by apply Hnone.
  - destruct (Open_file_or_not_exist healthy_env unprovisioned 0%nat _ "/a.txt" Hu)
      as (r & st' & HO & _ & _ & Hh); [by left|].
    destruct (Hh 0%nat eq_refl) as (_ & _ & _ & Hok).
    unfold value_of. rewrite HO. f_equal.
    apply (Hok (Hau healthy_env eq_refl) a_txt); reflexivity.
Defined.

(** ** No invalidation on [sql.ErrNoRows] *)

(** C5. On an instance that holds handle [h], when the query of
    [Open(name)] gives [sql.ErrNoRows]: [Open] returns [fs.ErrNotExist],
    the instance and the copy of the receiver both still hold [h], and
    [sql.Open] is not called. A following [Open] of another name, whose
    row is selected and scans while [h] answers, succeeds, and its query
    too runs on [h], with no [sql.Open] in between. *)
Theorem Open_no_rows_keeps_handle env st p s h arg :
  heap st !! p = Some s -> db s = Some h ->
  snd (Sql.QueryRowScan env h arg (driver st)) = Sql.ScanErr ErrNoRows ->
  let st1 := state_after (Open_at p arg) env st in
  Open_at p arg env st = Returns ((None, Some ErrNotExist), st1) /\
  heap st1 !! p = Some s /\
  heap st1 !! fresh (dom (heap st)) = Some s /\
  driver st1 = queried (driver st) h arg /\
  forall env2 arg2 e c m d,
    answers env2 (driver st1) h ->
    Sql.select env2 arg2 = Some e -> Sql.decode e = Sql.Scanned c m d ->
    let st2 := state_after (Open_at p arg2) env2 st1 in
    Open_at p arg2 env2 st1 = Returns ((Some (materialize c m d), None), st2) /\
    heap st2 !! p = Some s /\
    Sql.next (driver st2) = Sql.next (driver st) /\
    Sql.log (driver st2) =
      Sql.log (driver st) ++ [Sql.EvQuery h arg; Sql.EvQuery h arg2].
Proof.
  intros Hp Hdb Hq st1.
  pose proof (Open_at_held env st p s h arg Hp Hdb) as H1.
  cbv zeta in H1. rewrite Hq in H1. simpl in H1.
  assert (Hst1 : st1 = mkState (<[fresh (dom (heap st)) := s]> (heap st))
                               (queried (driver st) h arg)).
  { subst st1. unfold state_after. by rewrite H1. }
  assert (Hp1 : heap st1 !! p = Some s).
  { rewrite Hst1. by apply (Open_at_frame _ _ _ _ _ _ _ _ H1). }
  split; [by rewrite Hst1|]. split; [done|].
  split; [by rewrite Hst1; simpl; rewrite lookup_insert_eq|].
  split; [by rewrite Hst1|].
  intros env2 arg2 e c m d Ha Hsel Hdec st2.
  pose proof (Open_at_held env2 st1 p s h arg2 Hp1 Hdb) as H2.
  cbv zeta in H2. rewrite (QueryRowScan_answers _ _ _ _ Ha), Hsel, Hdec in H2.
  simpl in H2.
  assert (Hst2 : st2 = mkState (<[fresh (dom (heap st1)) := s]> (heap st1))
                               (queried (driver st1) h arg2)).
  { subst st2. unfold state_after. by rewrite H2. }
  split; [by rewrite Hst2|].
  split.
  { rewrite Hst2. by apply (Open_at_frame _ _ _ _ _ _ _ _ H2). }
  rewrite Hst2, Hst1. simpl. split; [done|]. by rewrite <- app_assoc.
Qed.

(** [/missing.txt] has no row: not found; then [/a.txt] is served, both
    queries on handle 0 and [sql.Open] called once, by [Provision]. *)
Lemma Open_no_rows_keeps_handle_witness :
  let st1 := state_after (Open_at 0%nat "/missing.txt") healthy_env provisioned in
  let st2 := state_after (Open_at 0%nat "/a.txt") healthy_env st1 in
  value_of (Open_at 0%nat "/missing.txt") healthy_env provisioned = Some (None, Some ErrNotExist) /\
  heap st1 !! 0%nat = Some (mkFS "/srv/files.db" (Some 0%nat)) /\
  Open_at 0%nat "/a.txt" healthy_env st1 =
    Returns ((Some (materialize hello (Some 1700000000) (Some 420)), None), st2) /\
  Sql.log (driver st2) =
    Sql.log (driver provisioned) ++ [Sql.EvQuery 0%nat "/missing.txt"; Sql.EvQuery 0%nat "/a.txt"].
Proof.
  intros st1 st2.
  assert (Hp : heap provisioned !! 0%nat = Some (mkFS "/srv/files.db" (Some 0%nat)))
    by (vm_compute; reflexivity).
  assert (Hq : snd (Sql.QueryRowScan healthy_env 0%nat "/missing.txt" (driver provisioned))
               = Sql.ScanErr ErrNoRows) by (vm_compute; reflexivity).
  destruct (Open_no_rows_keeps_handle healthy_env provisioned 0%nat _ 0%nat
              "/missing.txt" Hp eq_refl Hq) as (H1 & Hkeep & _ & _ & Hnext).
  split; [unfold value_of; by rewrite H1|]. split; [exact Hkeep|].
  assert (Ha : answers healthy_env
                 (driver (state_after (Open_at 0%nat "/missing.txt") healthy_env provisioned)) 0%nat).
  { split; [vm_compute; apply not_elem_of_nil|reflexivity]. }
  destruct (Hnext healthy_env "/a.txt" a_txt hello (Some 1700000000) (Some 420)
              Ha eq_refl eq_refl) as (H2 & _ & _ & Hlog).
  split; [exact H2|exact Hlog].
Defined.

(** ** From the stored row to the file *)

Lemma scan_int_ok fits what v r :
  Sql.scan_int fits what v = inr r ->
  r = v /\ (forall x, v = Some x -> fits x = true).
Proof.
  unfold Sql.scan_int. destruct v as [z|]; [|intros [= <-]; by split].
  destruct (fits z) eqn:Hz; [|done]. intros [= <-]. split; [done|]. by intros x [= <-].
Qed.

(** A row that scans gives its columns as they are stored, a NULL
    content as the empty slice; its integers fit their Go types. *)
Lemma decode_Scanned e c m d :
  Sql.decode e = Sql.Scanned c m d ->
  c = default [] (Sql.content e) /\ m = Sql.modified e /\ d = Sql.mode e /\
  (forall x, m = Some x -> - 2^63 <= x < 2^63) /\
  (forall x, d = Some x -> - 2^31 <= x < 2^31).
Proof.
  unfold Sql.decode.
  destruct (Sql.scan_int Int.in_int64 _ _) as [|m'] eqn:Hm; [done|].
  destruct (Sql.scan_int Int.in_int32 _ _) as [|d'] eqn:Hd; [done|].
  intros [= <- <- <-].
  apply scan_int_ok in Hm as [-> Hm], Hd as [-> Hd].
  split; [done|]. split; [done|]. split; [done|]. split.
  - intros x Hx. apply in_int64_range. by apply Hm.
  - intros x Hx. apply in_int32_range. by apply Hd.
Qed.

(** The row the query selects is stored, has the name asked for and is
    visible. *)
Lemma select_Some env arg e :
  Sql.select env arg = Some e ->
  e ∈ Sql.files env /\ Sql.name e = arg /\ Sql.visible (Sql.now env) e = true.
Proof.
  unfold Sql.select. intros H. apply find_some in H as [Hin Hsel].
  unfold Sql.selected in Hsel. apply andb_true_iff in Hsel as [Hname Hvis].
  apply String.eqb_eq in Hname. split; [by apply list_elem_of_In|done].
Qed.

(** A scan that succeeds scanned the selected row. *)
Lemma QueryRowScan_Scanned env h arg d d' c m md :
  Sql.QueryRowScan env h arg d = (d', Sql.Scanned c m md) ->
  exists e, Sql.select env arg = Some e /\ Sql.decode e = Sql.Scanned c m md.
Proof.
  unfold Sql.QueryRowScan. destruct (bool_decide _); [done|].
  destruct (Sql.fault env h); [done|].
  destruct (Sql.select env arg) as [e|]; [|done].
  intros [= _ H]. by exists e.
Qed.

(** No file built by [Open] has its [name] set. *)
Lemma materialize_name content modified mode :
  name (info (materialize content modified mode)) = "".
Proof. unfold materialize. by destruct modified, mode. Qed.

Lemma conclude_file sc f :
  fst (conclude sc) = Some f ->
  exists c m d, sc = Sql.Scanned c m d /\ f = materialize c m d.
Proof. destruct sc as [c m d|e]; simpl; [|done]. intros [= <-]. eauto. Qed.

(** A file returned by [Open] is the one built from a scanned row. *)
Lemma Open_at_file env st p arg f err st' :
  Open_at p arg env st = Returns ((Some f, err), st') ->
  exists h d c m md,
    Sql.QueryRowScan env h arg d = (queried d h arg, Sql.Scanned c m md) /\
    f = materialize c m md /\ err = None.
Proof.
  intros H.
  destruct (heap st !! p) as [s|] eqn:Hp;
    [|unfold_M; by rewrite Hp in H].
  assert (Hgen : forall h d,
    Returns (conclude (snd (Sql.QueryRowScan env h arg d)), st') = Returns ((Some f, err), st') ->
    exists c m md,
      Sql.QueryRowScan env h arg d = (queried d h arg, Sql.Scanned c m md) /\
      f = materialize c m md /\ err = None).
  { intros h d Heq. pose proof (QueryRowScan_driver env h arg d) as Hd.
    destruct (Sql.QueryRowScan env h arg d) as [d' [c m md|e]]; simpl in *;
      inversion Heq; subst. by exists c, m, md. }
  destruct (db s) as [h|] eqn:Hdb.
  - rewrite (Open_at_held _ _ _ _ _ _ Hp Hdb) in H. simpl in H.
    exists h, (driver st). apply Hgen. inversion H; subst. by rewrite H1.
  - destruct (Sql.open_db env) eqn:Hopen, (Sql.open_err env) as [msg|] eqn:Herr.
    + destruct (Open_at_open_failure_with_db _ _ _ _ _ arg Hp Hdb Hopen Herr) as [d Hd].
      rewrite Hd in H. inversion H.
    + rewrite (Open_at_unopened _ _ _ _ _ Hp Hdb Hopen Herr) in H. simpl in H.
      eexists _, _. apply Hgen. inversion H; subst. by rewrite H1.
    + by rewrite (Open_at_open_failure_nil_db _ _ _ _ _ arg Hp Hdb Hopen Herr) in H.
    + rewrite (Open_at_unopened_nil _ _ _ _ _ Hp Hdb Hopen Herr) in H.
      inversion H.
Qed.

(** C4. A successful [Open] comes from a stored row with the name asked
    for; with [c] its content, [m] its [modified] and [d] its [mode]: the
    error is nil, [Stat] returns the file's info and a nil error, [Size()]
    is the length of [c], [ModTime()] is [time.Unix(m, 0)], whose
    [Unix()] is [m] again, or the zero time when [m] is NULL, [Mode()] is
    [fs.FileMode(d)], with the bits of [d] and equal to [d] when [d] is
    not negative, or 0 when [d] is NULL, and reading the file to its end
    with a buffer of any positive size gives exactly [c]. *)
Theorem Open_materializes_row env st p arg f err st' :
  Open_at p arg env st = Returns ((Some f, err), st') ->
  exists e,
    e ∈ Sql.files env /\ Sql.name e = arg /\
    let c := default [] (Sql.content e) in
    let m := Sql.modified e in
    let d := Sql.mode e in
    err = None /\
    Stat f = (info f, None) /\
    Size (info f) = Z.of_nat (length c) /\
    ModTime (info f) = match m with Some x => Time.Unix x | None => Time.zero end /\
    (forall x, m = Some x -> Time.unix (ModTime (info f)) = x) /\
    (m = None -> Time.IsZero (ModTime (info f)) = true) /\
    Mode (info f) = match d with Some x => FileMode.of_int32 x | None => 0 end /\
    (forall x i, d = Some x -> 0 <= i < 32 -> Z.testbit (Mode (info f)) i = Z.testbit x i) /\
    (forall x, d = Some x -> 0 <= x -> Mode (info f) = x) /\
    (forall n fuel, (0 < n)%nat -> (length c < fuel)%nat -> read_to_end fuel n f = Some c).
Proof.
  intros H.
  destruct (Open_at_file _ _ _ _ _ _ _ H) as (h & dr & c & m & d & Hq & -> & ->).
  apply QueryRowScan_Scanned in Hq as (e & Hsel & Hdec).
  apply select_Some in Hsel as (Hin & Hname & _).
  apply decode_Scanned in Hdec as (-> & -> & -> & Hm & Hd).
  exists e. split; [done|]. split; [done|].
  cbv zeta. unfold Stat, Size, ModTime, Mode.
  assert (HT : modTime (info (materialize (default [] (Sql.content e)) (Sql.modified e) (Sql.mode e)))
               = match Sql.modified e with Some x => Time.Unix x | None => Time.zero end).
  { unfold materialize. by destruct (Sql.modified e), (Sql.mode e). }
  assert (HM : mode (info (materialize (default [] (Sql.content e)) (Sql.modified e) (Sql.mode e)))
               = match Sql.mode e with Some x => FileMode.of_int32 x | None => 0 end).
  { unfold materialize. by destruct (Sql.modified e), (Sql.mode e). }
  rewrite HT, HM.
  repeat split.
  - unfold materialize. by destruct (Sql.modified e), (Sql.mode e).
  - intros x Hx. rewrite Hx. apply Time_unix_Unix. by apply Hm.
  - by intros ->.
  - intros x i Hx Hi. rewrite Hx. by apply FileMode_of_int32_bits.
  - intros x Hx Hpos. rewrite Hx. apply FileMode_of_int32_nonneg.
    specialize (Hd x Hx). lia.
  - intros n fuel Hn Hfuel. by apply read_to_end_materialize.
Qed.

(** Opening [/a.txt] on the provisioned instance: size 5, modified at
    1700000000, mode 0644, content [hello]. *)
Lemma Open_materializes_row_witness :
  let f := materialize hello (Some 1700000000) (Some 420) in
  value_of (Open_at 0%nat "/a.txt") healthy_env provisioned = Some (Some f, None) /\
  Size (info f) = 5 /\
  Time.unix (ModTime (info f)) = 1700000000 /\
  Mode (info f) = 420 /\
  read_to_end 6 4 f = Some hello.
Proof.
  intros f.
  assert (H : Open_at 0%nat "/a.txt" healthy_env provisioned =
              Returns ((Some f, None),
                       state_after (Open_at 0%nat "/a.txt") healthy_env provisioned))
    by (vm_compute; reflexivity).
  destruct (Open_materializes_row _ _ _ _ _ _ _ H)
    as (e & Hin & _ & _ & _ & Hsize & _ & Hunix & _ & _ & _ & Hmode & Hread).
  apply list_elem_of_singleton in Hin. subst e.
  split; [vm_compute; reflexivity|].
  split; [exact Hsize|].
  split; [exact (Hunix 1700000000 eq_refl)|].
  split; [apply (Hmode 420 eq_refl); lia|].
  apply Hread; simpl; lia.
Defined.

(** Whatever the path opened, [Stat().Name()] is ["."]. *)
Lemma Open_at_Name env st p arg f err st' :
  Open_at p arg env st = Returns ((Some f, err), st') ->
  Name (fst (Stat f)) = ".".
Proof.
  intros H. destruct (Open_at_file _ _ _ _ _ _ _ H) as (h & d & c & m & md & _ & -> & _).
  unfold Name, Stat. simpl. by rewrite materialize_name.
Qed.

(** C6. [Open] never assigns the [name] field of the [sqliteFileInfo] it
    builds: opening [/a.txt] gives a file whose [Stat().Name()] is ["."],
    the base of the empty path, and not ["a.txt"], the final element of
    the path opened. *)
Theorem Open_Name_not_recorded :
  exists f,
    value_of (Open_at 0%nat "/a.txt") healthy_env provisioned = Some (Some f, None) /\
    name (info f) = "" /\
    Name (fst (Stat f)) = "." /\
    Path.Base "/a.txt" = "a.txt".
Proof.
  exists (materialize hello (Some 1700000000) (Some 420)).
  repeat split; vm_compute; reflexivity.
Qed.

(** ** Closing a file *)

(** C8. [Close] may be called again: each call returns a nil error, and
    the second leaves the file as the first did, without reader and with
    the zero [sqliteFileInfo]. *)
Theorem Close_twice (f : sqliteFile) :
  let (f1, err1) := Close f in
  let (f2, err2) := Close f1 in
  err1 = None /\ err2 = None /\ f2 = f1 /\
  reader f1 = None /\ info f1 = zeroInfo.
Proof. simpl. done. Qed.

(** ** Expiry *)

Lemma visible_not_expired clock e : Sql.visible clock e = true <-> ~ expired clock e.
Proof.
  unfold Sql.visible, expired. destruct (Sql.expired_at e) as [x|].
  - rewrite Z.ltb_lt. split.
    + intros Hlt (y & [= <-] & Hle). lia.
    + intros Hn. destruct (Z.lt_ge_cases clock x); [done|]. exfalso. apply Hn. eauto.
  - split; [|done]. intros _ (y & Hy & _). done.
Qed.

(** The query finds nothing exactly when every row with the name is
    expired. *)
Lemma select_None env arg :
  Sql.select env arg = None <->
  forall e, e ∈ Sql.files env -> Sql.name e = arg -> expired (Sql.now env) e.
Proof.
  unfold Sql.select. split.
  - intros H e Hin Hname. apply list_elem_of_In in Hin.
    pose proof (find_none _ _ H e Hin) as Hsel.
    unfold Sql.selected in Hsel. apply String.eqb_eq in Hname. rewrite Hname in Hsel.
    simpl in Hsel. destruct (Sql.visible (Sql.now env) e) eqn:Hv; [done|].
    unfold Sql.visible in Hv. destruct (Sql.expired_at e) as [x|] eqn:Hx; [|done].
    exists x. split; [done|]. apply Z.ltb_ge in Hv. lia.
  - intros H. destruct (find _ _) as [e|] eqn:Hf; [|done].
    apply find_some in Hf as [Hin Hsel]. unfold Sql.selected in Hsel.
    apply andb_true_iff in Hsel as [Hname Hvis]. apply String.eqb_eq in Hname.
    apply visible_not_expired in Hvis. exfalso. apply Hvis.
    apply H; [by apply list_elem_of_In|done].
Qed.

(** A visible row with the name makes the query select a row. *)
Lemma select_visible env arg e :
  e ∈ Sql.files env -> Sql.name e = arg -> Sql.visible (Sql.now env) e = true ->
  exists e', Sql.select env arg = Some e'.
Proof.
  intros Hin Hname Hvis. destruct (Sql.select env arg) as [e'|] eqn:Hs; [eauto|].
  exfalso. apply (proj1 (visible_not_expired _ _) Hvis).
  by apply (proj1 (select_None env arg) Hs).
Qed.

(** A row named [/a.txt] is stored with [expired_at] 5, the clock is at
    10, and [Open] of [/a.txt] succeeds: it serves the other row of that
    name. *)
Lemma Open_serves_name_of_expired_row :
  expired_a_txt ∈ Sql.files renewed_env /\
  Sql.name expired_a_txt = "/a.txt" /\
  Sql.expired_at expired_a_txt = Some 5 /\
  5 <= Sql.now renewed_env /\
  value_of (Open_at 0%nat "/a.txt") renewed_env provisioned
    = Some (Some (materialize hello None None), None).
Proof.
  split; [apply list_elem_of_here|].
  repeat split; vm_compute; (reflexivity || discriminate).
Qed.

(** C3, amended. On a handle that answers: [Open(name)] returns
    [fs.ErrNotExist] when every stored row with that name is expired
    ([expired_at] present and at most the clock), stored though they are;
    when some stored row with that name is visible ([expired_at] NULL or
    after the clock), the query selects a visible row of that name, and
    [Open] succeeds with it when it scans. So when the name is stored
    once, [Open] returns [fs.ErrNotExist] if that row is expired and
    succeeds with it if it is visible and scans. *)
Theorem Open_honours_expiry env st p s h arg :
  heap st !! p = Some s -> serving env st s = Some h -> answers env (driver st) h ->
  ((forall e, e ∈ Sql.files env -> Sql.name e = arg -> expired (Sql.now env) e) ->
   value_of (Open_at p arg) env st = Some (None, Some ErrNotExist)) /\
  (forall e, e ∈ Sql.files env -> Sql.name e = arg -> Sql.visible (Sql.now env) e = true ->
   exists e', e' ∈ Sql.files env /\ Sql.name e' = arg /\
              Sql.visible (Sql.now env) e' = true /\
              forall c m d, Sql.decode e' = Sql.Scanned c m d ->
                value_of (Open_at p arg) env st = Some (Some (materialize c m d), None)) /\
  (forall e, e ∈ Sql.files env -> Sql.name e = arg ->
   (forall e2, e2 ∈ Sql.files env -> Sql.name e2 = arg -> e2 = e) ->
   (expired (Sql.now env) e ->
    value_of (Open_at p arg) env st = Some (None, Some ErrNotExist)) /\
   (Sql.visible (Sql.now env) e = true ->
    forall c m d, Sql.decode e = Sql.Scanned c m d ->
      value_of (Open_at p arg) env st = Some (Some (materialize c m d), None))).
Proof.
  intros Hp Hs Ha.
  pose proof (Open_at_value env st p s h arg Hp Hs) as Hval.
  rewrite (QueryRowScan_answers _ _ _ _ Ha) in Hval.
  assert (Hnone : (forall e, e ∈ Sql.files env -> Sql.name e = arg -> expired (Sql.now env) e) ->
                  value_of (Open_at p arg) env st = Some (None, Some ErrNotExist)).
  { intros Hall. apply select_None in Hall. by rewrite Hall in Hval. }
  assert (Hsome : forall e, e ∈ Sql.files env -> Sql.name e = arg ->
                  Sql.visible (Sql.now env) e = true ->
                  exists e', Sql.select env arg = Some e' /\
                    forall c m d, Sql.decode e' = Sql.Scanned c m d ->
                      value_of (Open_at p arg) env st = Some (Some (materialize c m d), None)).
  { intros e Hin Hname Hvis.
    destruct (select_visible env arg e Hin Hname Hvis) as [e' He'].
    exists e'. split; [done|]. intros c m d Hdec. by rewrite He', Hdec in Hval. }
  split; [exact Hnone|]. split.
  - intros e Hin Hname Hvis.
    destruct (Hsome e Hin Hname Hvis) as (e' & He' & Hopen).
    exists e'. destruct (select_Some _ _ _ He') as (? & ? & ?). done.
  - intros e Hin Hname Huniq. split.
    + intros Hexp. apply Hnone. intros e2 Hin2 Hname2.
      by rewrite (Huniq e2 Hin2 Hname2).
    + intros Hvis c m d Hdec.
      destruct (Hsome e Hin Hname Hvis) as (e' & He' & Hopen).
      destruct (select_Some _ _ _ He') as (Hin' & Hname' & _).
      rewrite (Huniq e' Hin' Hname') in Hopen. by apply Hopen.
Qed.

(** The expired [/old.txt] is not found, by the provisioned instance and
    by the one that opens its handle inside [Open]; the visible [/a.txt]
    is served. *)
Lemma Open_honours_expiry_witness :
  value_of (Open_at 0%nat "/old.txt") expired_env provisioned = Some (None, Some ErrNotExist) /\
  value_of (Open_at 0%nat "/old.txt") expired_env unprovisioned = Some (None, Some ErrNotExist) /\
  value_of (Open_at 0%nat "/a.txt") healthy_env provisioned
    = Some (Some (materialize hello (Some 1700000000) (Some 420)), None).
Proof.
  assert (Hold : forall e, e ∈ Sql.files expired_env -> Sql.name e = "/old.txt" ->
                 expired (Sql.now expired_env) e).
  { intros e Hin _. apply list_elem_of_singleton in Hin. subst e.
    exists 1700000500. split; [reflexivity|]. simpl. lia. }
  split; [|split].
  - refine (proj1 (Open_honours_expiry expired_env provisioned 0%nat
                     (mkFS "/srv/files.db" (Some 0%nat)) 0%nat "/old.txt" _ _ _) Hold).
    + vm_compute. reflexivity.
    + reflexivity.
    + split; [vm_compute; apply not_elem_of_nil|reflexivity].
  - refine (proj1 (Open_honours_expiry expired_env unprovisioned 0%nat
                     (mkFS "/srv/files.db" None) 0%nat "/old.txt" _ _ _) Hold).
    + vm_compute. reflexivity.
    + reflexivity.
    + split; [vm_compute; apply not_elem_of_nil|reflexivity].
  - refine (proj2 (proj2 (proj2 (Open_honours_expiry healthy_env provisioned 0%nat
                     (mkFS "/srv/files.db" (Some 0%nat)) 0%nat "/a.txt" _ _ _))
                   a_txt _ _ _) _ hello (Some 1700000000) (Some 420) _).
    + vm_compute. reflexivity.
    + reflexivity.
    + split; [vm_compute; apply not_elem_of_nil|reflexivity].
    + apply list_elem_of_here.
    + reflexivity.
    + intros e2 Hin _. by apply list_elem_of_singleton in Hin.
    + reflexivity.
    + vm_compute. reflexivity.
Defined.

(** ** Reading in pieces *)

Lemma take_sum {A} (l : list A) n k :
  firstn (n + k) l = firstn n l ++ firstn k (skipn n l).
Proof.
  revert l. induction n as [|n IH]; intros [|x l]; simpl; try done.
  - by destruct k.
  - by rewrite IH.
Qed.

Lemma drop_sum {A} (l : list A) n k : skipn (n + k) l = skipn k (skipn n l).
Proof.
  revert l. induction n as [|n IH]; intros [|x l]; simpl; try done.
  by destruct k.
Qed.

(** One [Read]: the next [len(p)] bytes not read yet, [io.EOF] at the
    end for a buffer that is not empty. *)
Lemma Read_step f n :
  is_Some (reader f) ->
  exists f',
    Read f n = Returns (f', firstn n (remaining f),
                        if decide (remaining f = [] /\ n <> 0%nat) then Some EOF else None) /\
    is_Some (reader f') /\
    remaining f' = skipn n (remaining f) /\
    info f' = info f.
Proof.
  intros [[buf off] Hr]. unfold Read, remaining. rewrite Hr.
  unfold Buffer.Read, Buffer.empty. simpl.
  destruct (Nat.leb_spec (length buf) off) as [Hle|Hlt].
  - assert (Hnil : skipn off buf = []) by (by apply skipn_all2).
    rewrite Hnil. exists (mkFile (Some (Buffer.mk [] 0)) (info f)).
    split; [|split; [by eexists|split; [|done]]].
    + rewrite firstn_nil.
      destruct (Nat.eqb_spec n 0) as [->|Hn]; destruct (decide _) as [[_ ?]|Hd];
        try done. exfalso. by apply Hd.
    + simpl. by rewrite skipn_nil.
  - exists (mkFile (Some (Buffer.mk buf (off + length (firstn n (skipn off buf)))))
                   (info f)).
    split; [|split; [by eexists|split; [|done]]].
    + destruct (decide _) as [[Hnil _]|_]; [|done].
      apply (f_equal length) in Hnil.
      rewrite length_skipn in Hnil. simpl in Hnil. lia.
    + simpl. rewrite drop_sum. rewrite length_firstn, length_skipn.
      destruct (Nat.min_spec n (length buf - off)) as [[? ->]|[? ->]]; [done|].
      rewrite !skipn_all2; [done| |]; rewrite ?length_skipn; lia.
Qed.

(** Nothing read yet from a file just built: all its content remains. *)
Lemma remaining_materialize c m d :
  remaining (materialize c m d) = c /\ is_Some (reader (materialize c m d)).
Proof. unfold materialize, remaining. destruct m, d; simpl; eauto. Qed.

(** [Read] hands out the next bytes not read yet, as many as the buffer
    holds or fewer when fewer are left, and moves past them: what remained
    before is what was read followed by what remains. The error is
    [io.EOF] exactly when nothing was left and the buffer is not empty,
    and nil otherwise; the file info stays as it is. *)
Theorem Read_takes_next f n :
  is_Some (reader f) ->
  exists f' chunk err,
    Read f n = Returns (f', chunk, err) /\
    chunk = firstn n (remaining f) /\
    (length chunk <= n)%nat /\
    remaining f = chunk ++ remaining f' /\
    (err = Some EOF <-> remaining f = [] /\ n <> 0%nat) /\
    (err = None \/ err = Some EOF) /\
    info f' = info f.
Proof.
  intros Hr. destruct (Read_step f n Hr) as (f' & HR & _ & Hrem & Hinfo).
  eexists f', _, _. split; [exact HR|]. split; [done|].
  split; [rewrite length_firstn; lia|].
  split; [by rewrite Hrem, firstn_skipn|].
  destruct (decide _) as [Hd|Hd]; (split; [|split; [eauto|done]]); by split.
Qed.

(** Reading [/a.txt], 5 bytes, with a buffer of 2: the first 2 bytes and
    no error. *)
Lemma Read_takes_next_witness :
  exists f',
    Read (materialize hello (Some 1700000000) (Some 420)) 2
      = Returns (f', firstn 2 hello, None) /\
    remaining f' = skipn 2 hello.
Proof.
  destruct (Read_takes_next (materialize hello (Some 1700000000) (Some 420)) 2)
    as (f' & chunk & err & HR & Hchunk & _ & Hrem & HEOF & Herr & _).
  { simpl. eauto. }
  subst chunk. destruct Herr as [Herr|Herr]; subst err.
  - exists f'. split; [exact HR|].
    change (remaining (materialize hello (Some 1700000000) (Some 420))) with hello in Hrem.
    change (firstn 2 (remaining (materialize hello (Some 1700000000) (Some 420))))
      with (firstn 2 hello) in Hrem.
    rewrite <- (firstn_skipn 2 hello) in Hrem at 1.
    by apply app_inv_head in Hrem.
  - destruct (proj1 HEOF eq_refl) as [Habs _]. discriminate Habs.
Defined.

(** Reads one after the other, with buffers of any sizes, give the bytes
    of the file in order, none twice and none left out: together the
    first [sum ns] bytes of what remained, and the rest remains. After the
    end nothing more comes. *)
Theorem Reads_forward_only ns f :
  is_Some (reader f) ->
  exists f',
    Reads ns f = Returns (f', firstn (foldr Nat.add 0%nat ns) (remaining f)) /\
    is_Some (reader f') /\
    remaining f' = skipn (foldr Nat.add 0%nat ns) (remaining f) /\
    info f' = info f.
Proof.
  revert f. induction ns as [|n ns IH]; intros f Hr; simpl.
  - exists f. by rewrite skipn_O.
  - destruct (Read_step f n Hr) as (f1 & HR & Hr1 & Hrem1 & Hinfo1).
    rewrite HR.
    destruct (IH f1 Hr1) as (f2 & HRs & Hr2 & Hrem2 & Hinfo2).
    rewrite HRs. exists f2. rewrite Hrem1 in *.
    split; [by rewrite take_sum|]. split; [done|].
    split; [by rewrite drop_sum|]. by rewrite Hinfo2.
Qed.

(** Buffers of 2, 0, 1 and 7 bytes on the 5 bytes of [/a.txt]: the whole
    content, and nothing remains. *)
Lemma Reads_forward_only_witness :
  exists f',
    Reads [2; 0; 1; 7]%nat (materialize hello (Some 1700000000) (Some 420))
      = Returns (f', hello) /\
    remaining f' = [].
Proof.
  destruct (Reads_forward_only [2; 0; 1; 7]%nat
              (materialize hello (Some 1700000000) (Some 420)))
    as (f' & HR & _ & Hrem & _).
  { simpl. eauto. }
  exists f'. split; [exact HR|exact Hrem].
Defined.

(** After [Close] a [Read] panics on the nil reader, whatever the file
    was and whatever the buffer, and [Stat] gives the zero info with a nil
    error: size 0, name ["."], no mode bits. *)
Theorem Read_after_Close_panics f n :
  Read (fst (Close f)) n = Panics nil_deref /\
  Stat (fst (Close f)) = (zeroInfo, None) /\
  Size (fst (Stat (fst (Close f)))) = 0 /\
  Name (fst (Stat (fst (Close f)))) = "." /\
  IsDir (fst (Stat (fst (Close f)))) = false.
Proof. repeat split. Qed.

(** ** What the stored integers mean for the file info *)

(** A file [Open] returns is built from a stored, visible row of the
    name asked for, whose integers fit their Go types. *)
Lemma Open_at_row env st p arg f err st' :
  Open_at p arg env st = Returns ((Some f, err), st') ->
  exists e,
    e ∈ Sql.files env /\ Sql.name e = arg /\ Sql.visible (Sql.now env) e = true /\
    f = materialize (default [] (Sql.content e)) (Sql.modified e) (Sql.mode e) /\
    (forall x, Sql.modified e = Some x -> - 2^63 <= x < 2^63) /\
    (forall x, Sql.mode e = Some x -> - 2^31 <= x < 2^31).
Proof.
  intros H.
  destruct (Open_at_file _ _ _ _ _ _ _ H) as (h & dr & c & m & d & Hq & -> & _).
  apply QueryRowScan_Scanned in Hq as (e & Hsel & Hdec).
  apply select_Some in Hsel as (Hin & Hname & Hvis).
  apply decode_Scanned in Hdec as (-> & -> & -> & Hm & Hd).
  by exists e.
Qed.

Lemma land_pow2 a n :
  0 <= n -> Z.land a (2^n) = if Z.testbit a n then 2^n else 0.
Proof.
  intros Hn. apply Z.bits_inj'. intros i Hi.
  rewrite Z.land_spec, Z.pow2_bits_eqb by done.
  destruct (Z.eqb_spec n i) as [->|Hne].
  - rewrite andb_true_r. destruct (Z.testbit a i) eqn:E.
    + by rewrite Z.pow2_bits_eqb, Z.eqb_refl.
    + by rewrite Z.bits_0.
  - rewrite andb_false_r. destruct (Z.testbit a n).
    + rewrite Z.pow2_bits_eqb by done. symmetry. by apply Z.eqb_neq.
    + by rewrite Z.bits_0.
Qed.

Lemma testbit_31_of_int32 d :
  - 2^31 <= d < 2^31 -> Z.testbit (FileMode.of_int32 d) 31 = (d <? 0).
Proof.
  intros Hd. unfold FileMode.of_int32, Int.to_uint32.
  apply Z.b2z_inj. rewrite Z.testbit_spec' by lia.
  destruct (Z.ltb_spec d 0) as [Hneg|Hpos]; simpl.
  - replace (d mod 2^32) with (d + 2^32).
    + replace ((d + 2^32) / 2^31) with 1; [done|].
      apply Z.div_unique with (r := d + 2^31); lia.
    + apply Z.mod_unique with (q := -1); lia.
  - rewrite (Z.mod_small d (2^32)) by lia. rewrite Z.div_small by lia. done.
Qed.

Lemma IsDir_of_int32 d :
  - 2^31 <= d < 2^31 -> FileMode.IsDir (FileMode.of_int32 d) = (d <? 0).
Proof.
  intros Hd. unfold FileMode.IsDir, FileMode.ModeDir.
  rewrite Z.shiftl_1_l, land_pow2 by lia.
  rewrite (testbit_31_of_int32 d Hd). by destruct (d <? 0).
Qed.

(** A file that [Open] returns is a directory to [IsDir()] exactly when
    the stored mode is negative: the sign bit of the [int32] is the bit
    [fs.ModeDir] of the [fs.FileMode]. With a NULL mode it is not. *)
Theorem Open_IsDir_sign_of_mode env st p arg f err st' :
  Open_at p arg env st = Returns ((Some f, err), st') ->
  exists e,
    e ∈ Sql.files env /\ Sql.name e = arg /\
    IsDir (info f) = match Sql.mode e with
                     | Some d => d <? 0
                     | None => false
                     end.
Proof.
  intros H. destruct (Open_at_row _ _ _ _ _ _ _ H) as (e & Hin & Hname & _ & -> & _ & Hd).
  exists e. split; [done|]. split; [done|].
  unfold IsDir, materialize.
  destruct (Sql.mode e) as [d|] eqn:Hmode.
  - specialize (Hd d eq_refl). destruct (Sql.modified e); simpl; by apply IsDir_of_int32.
  - by destruct (Sql.modified e).
Qed.

Lemma Open_IsDir_sign_of_mode_witness :
  (exists f st', Open_at 0%nat "/pub" dir_env provisioned = Returns ((Some f, None), st') /\
                 IsDir (info f) = true) /\
  (exists f st', Open_at 0%nat "/a.txt" dir_env provisioned = Returns ((Some f, None), st') /\
                 IsDir (info f) = false).
Proof.
  split.
  - assert (H : Open_at 0%nat "/pub" dir_env provisioned =
                Returns ((Some (materialize [] None (Some (- 2^31 + 493))), None),
                         state_after (Open_at 0%nat "/pub") dir_env provisioned))
      by (vm_compute; reflexivity).
    destruct (Open_IsDir_sign_of_mode _ _ _ _ _ _ _ H) as (e & Hin & Hname & HD).
    eexists _, _. split; [exact H|]. rewrite HD.
    apply list_elem_of_In in Hin. destruct Hin as [<-|[<-|[]]]; [done|reflexivity].
  - assert (H : Open_at 0%nat "/a.txt" dir_env provisioned =
                Returns ((Some (materialize hello (Some 1700000000) (Some 420)), None),
                         state_after (Open_at 0%nat "/a.txt") dir_env provisioned))
      by (vm_compute; reflexivity).
    destruct (Open_IsDir_sign_of_mode _ _ _ _ _ _ _ H) as (e & Hin & Hname & HD).
    eexists _, _. split; [exact H|]. rewrite HD.
    apply list_elem_of_In in Hin. destruct Hin as [<-|[<-|[]]]; [reflexivity|done].
Defined.

Lemma IsZero_Unix x :
  - 2^63 <= x < 2^63 -> Time.IsZero (Time.Unix x) = (x =? - Time.unixToInternal).
Proof.
  intros Hx. unfold Time.IsZero, Time.Unix. simpl. rewrite andb_true_r.
  assert (HU : Time.unixToInternal = 62135596800) by reflexivity.
  unfold Int.wrap64.
  destruct (Z.eqb_spec x (- Time.unixToInternal)) as [->|Hne].
  - rewrite HU. reflexivity.
  - apply Z.eqb_neq. rewrite HU in *.
    destruct (Z_lt_ge_dec (x + 62135596800 + 2^63) (2^64)) as [Hlt|Hge].
    + rewrite Z.mod_small by lia. lia.
    + replace ((x + 62135596800 + 2^63) mod 2^64) with (x + 62135596800 + 2^63 - 2^64);
        [lia|].
      apply Z.mod_unique with (q := 1); lia.
Qed.

(** [ModTime().IsZero()] of a file that [Open] returns tells a NULL
    [modified] from a stored one: it is true when [modified] is NULL, and
    for a stored [modified] only at -62135596800, the second the zero time
    stands for. A stored 0 is the Unix epoch, not the zero time. *)
Theorem Open_ModTime_IsZero env st p arg f err st' :
  Open_at p arg env st = Returns ((Some f, err), st') ->
  exists e,
    e ∈ Sql.files env /\ Sql.name e = arg /\
    Time.IsZero (ModTime (info f)) = match Sql.modified e with
                                     | Some x => x =? -62135596800
                                     | None => true
                                     end.
Proof.
  intros H. destruct (Open_at_row _ _ _ _ _ _ _ H) as (e & Hin & Hname & _ & -> & Hm & _).
  exists e. split; [done|]. split; [done|].
  unfold ModTime, materialize.
  destruct (Sql.modified e) as [x|] eqn:Hmod.
  - specialize (Hm x eq_refl). destruct (Sql.mode e); simpl; by apply IsZero_Unix.
  - by destruct (Sql.mode e).
Qed.

Lemma Open_ModTime_IsZero_witness :
  (exists f st', Open_at 0%nat "/epoch.txt" edge_env provisioned = Returns ((Some f, None), st') /\
                 Time.IsZero (ModTime (info f)) = false) /\
  (exists f st', Open_at 0%nat "/undated.txt" edge_env provisioned = Returns ((Some f, None), st') /\
                 Time.IsZero (ModTime (info f)) = true).
Proof.
  split.
  - assert (H : Open_at 0%nat "/epoch.txt" edge_env provisioned =
                Returns ((Some (materialize [] (Some 0) None), None),
                         state_after (Open_at 0%nat "/epoch.txt") edge_env provisioned))
      by (vm_compute; reflexivity).
    destruct (Open_ModTime_IsZero _ _ _ _ _ _ _ H) as (e & Hin & Hname & HZ).
    eexists _, _. split; [exact H|]. rewrite HZ.
    apply list_elem_of_In in Hin.
    destruct Hin as [<-|[<-|[<-|[<-|[]]]]]; (reflexivity || discriminate Hname).
  - assert (H : Open_at 0%nat "/undated.txt" edge_env provisioned =
                Returns ((Some (materialize [] None None), None),
                         state_after (Open_at 0%nat "/undated.txt") edge_env provisioned))
      by (vm_compute; reflexivity).
    destruct (Open_ModTime_IsZero _ _ _ _ _ _ _ H) as (e & Hin & Hname & HZ).
    eexists _, _. split; [exact H|]. rewrite HZ.
    apply list_elem_of_In in Hin.
    destruct Hin as [<-|[<-|[<-|[<-|[]]]]]; (reflexivity || discriminate Hname).
Defined.

(** ** The life cycle: [Provision], [Open] after [Open], [Cleanup] *)

(** [Provision] returns a nil error whenever it returns, whatever
    [sql.Open] did, and what it leaves in the instance itself is the
    handle [Open] would otherwise use for one call only: the handle held
    before, or the one [sql.Open] gave without an error, or none. The path
    and every other instance stay as they were. *)
Theorem Provision_keeps_handle_in_instance env st p err st' :
  Provision p env st = Returns (err, st') ->
  err = None /\
  exists s,
    heap st !! p = Some s /\
    heap st' !! p = Some (mkFS (DBPath s) (serving env st s)) /\
    (forall q, q <> p -> heap st' !! q = heap st !! q).
Proof.
  intros H. unfold Provision in H.
  change ((OpenDB p;; mret None) env st) with
    (match OpenDB p env st with
     | Returns (_, st1) => Returns (@None error, st1)
     | Panics msg => Panics msg
     end) in H.
  destruct (OpenDB p env st) as [[[] st1]|msg] eqn:HO; [|done].
  injection H as <- <-. split; [done|].
  destruct (OpenDB_receiver _ _ _ _ HO) as (s & s' & Hp & Hp' & Hpath).
  exists s. split; [done|]. split; [|intros q Hq; by apply (OpenDB_frame _ _ _ _ _ HO)].
  unfold serving. destruct (db s) as [h|] eqn:Hdb.
  - rewrite (OpenDB_held _ _ _ _ _ Hp Hdb) in HO. injection HO as <-.
    rewrite Hp. destruct s. simpl in *. by rewrite Hdb.
  - destruct (Sql.open_err env) as [msg|] eqn:Herr.
    + destruct (Sql.open_db env) eqn:Hopen.
      * rewrite (OpenDB_failure_with_db _ _ _ _ _ Hp Hdb Hopen Herr) in HO.
        injection HO as <-. simpl. by rewrite lookup_insert_eq.
      * by rewrite (OpenDB_failure_nil_db _ _ _ _ _ Hp Hdb Hopen Herr) in HO.
    + rewrite (OpenDB_opens _ _ _ _ Hp Hdb Herr) in HO. injection HO as <-.
      simpl. rewrite lookup_insert_eq. by destruct (Sql.open_db env).
Qed.

Lemma Provision_keeps_handle_in_instance_witness :
  exists st',
    Provision 0%nat healthy_env unprovisioned = Returns (None, st') /\
    heap st' !! 0%nat = Some (mkFS "/srv/files.db" (Some 0%nat)).
Proof.
  assert (H : Provision 0%nat healthy_env unprovisioned = Returns (None, provisioned))
    by (vm_compute; reflexivity).
  destruct (Provision_keeps_handle_in_instance _ _ _ _ _ H) as (_ & s & Hs & Hs' & _).
  exists provisioned. split; [exact H|].
  assert (s = mkFS "/srv/files.db" None) as ->.
  { assert (Hu : heap unprovisioned !! 0%nat = Some (mkFS "/srv/files.db" None))
      by (vm_compute; reflexivity).
    assert (E : Some s = Some (mkFS "/srv/files.db" None))
      by exact (eq_trans (eq_sym Hs) Hu).
    by injection E. }
  exact Hs'.
Defined.

(** One run of [Opens] on an instance that holds [h]: every call queries
    [h], the instance is left alone, and a closed [h] makes every result
    [fs.ErrNotExist]. *)
Lemma Opens_held p calls st s h :
  heap st !! p = Some s -> db s = Some h ->
  exists rs st',
    Opens p calls st = Returns (rs, st') /\
    length rs = length calls /\
    heap st' !! p = Some s /\
    Sql.next (driver st') = Sql.next (driver st) /\
    Sql.closed (driver st') = Sql.closed (driver st) /\
    Sql.log (driver st') = Sql.log (driver st) ++ map (fun c => Sql.EvQuery h (snd c)) calls /\
    (h ∈ Sql.closed (driver st) -> Forall (fun r => r = (None, Some ErrNotExist)) rs).
Proof.
  revert st. induction calls as [|[env arg] calls IH]; intros st Hp Hdb; simpl.
  - exists [], st. rewrite app_nil_r.
    do 6 (split; [done|]). intros _. constructor.
  - pose proof (Open_at_held env st p s h arg Hp Hdb) as H1. cbv zeta in H1.
    rewrite H1.
    assert (Hp1 : heap (mkState (<[fresh (dom (heap st)) :=
                     copy_after s (snd (Sql.QueryRowScan env h arg (driver st)))]> (heap st))
                     (queried (driver st) h arg)) !! p = Some s)
      by (by apply (Open_at_frame _ _ _ _ _ _ _ _ H1)).
    destruct (IH _ Hp1 Hdb) as (rs & st' & HO & Hlen & Hp' & Hnext & Hclosed & Hlog & Hall).
    rewrite HO. eexists _, st'. split; [done|]. simpl in *.
    split; [by rewrite Hlen|]. split; [done|]. split; [done|]. split; [done|].
    split; [by rewrite Hlog, <- app_assoc|].
    intros Hc. constructor; [|by apply Hall].
    unfold Sql.QueryRowScan. by rewrite bool_decide_eq_true_2.
Qed.

(** Once an instance holds a handle, calls of [Open], however many and
    whatever they find, never call [sql.Open] and never close anything:
    each call is one query on that same handle, in order, and the instance
    keeps the handle. *)
Theorem Opens_stay_on_held_handle p calls st s h :
  heap st !! p = Some s -> db s = Some h ->
  exists rs st',
    Opens p calls st = Returns (rs, st') /\
    length rs = length calls /\
    heap st' !! p = Some s /\
    Sql.next (driver st') = Sql.next (driver st) /\
    Sql.closed (driver st') = Sql.closed (driver st) /\
    Sql.log (driver st') = Sql.log (driver st) ++ map (fun c => Sql.EvQuery h (snd c)) calls.
Proof.
  intros Hp Hdb.
  destruct (Opens_held p calls st s h Hp Hdb)
    as (rs & st' & HO & Hlen & Hp' & Hnext & Hclosed & Hlog & _).
  by exists rs, st'.
Qed.

Lemma Opens_stay_on_held_handle_witness :
  exists rs st',
    Opens 0%nat [(healthy_env, "/missing.txt"); (broken_env, "/a.txt"); (healthy_env, "/a.txt")]
          provisioned = Returns (rs, st') /\
    heap st' !! 0%nat = Some (mkFS "/srv/files.db" (Some 0%nat)) /\
    Sql.log (driver st') =
      [Sql.EvOpen "sqlite3" "/srv/files.db?_journal=WAL"; Sql.EvQuery 0%nat "/missing.txt";
       Sql.EvQuery 0%nat "/a.txt"; Sql.EvQuery 0%nat "/a.txt"].
Proof.
  destruct (Opens_stay_on_held_handle 0%nat
              [(healthy_env, "/missing.txt"%string); (broken_env, "/a.txt"%string);
               (healthy_env, "/a.txt"%string)]
              provisioned (mkFS "/srv/files.db" (Some 0%nat)) 0%nat)
    as (rs & st' & HO & _ & Hp & _ & _ & Hlog).
  { vm_compute. reflexivity. }
  { reflexivity. }
  exists rs, st'. split; [exact HO|]. split; [exact Hp|]. exact Hlog.
Defined.

(** On an instance that holds no handle, every call of [Open] has
    [sql.Open] hand out one more handle, and none of them is ever closed
    or kept: after [n] calls [n] handles are out and the instance still
    holds none. *)
Theorem Opens_without_handle_open_each_time p calls st s :
  heap st !! p = Some s -> db s = None ->
  Forall (fun c => Sql.open_db (fst c) = true /\ Sql.open_err (fst c) = None) calls ->
  exists rs st',
    Opens p calls st = Returns (rs, st') /\
    length rs = length calls /\
    heap st' !! p = Some s /\
    Sql.next (driver st') = (Sql.next (driver st) + length calls)%nat /\
    Sql.closed (driver st') = Sql.closed (driver st).
Proof.
  revert st. induction calls as [|[env arg] calls IH]; intros st Hp Hdb Hall; simpl.
  - exists [], st. do 3 (split; [done|]). split; [lia|done].
  - apply Forall_cons in Hall as [[Hopen Herr] Hall]. simpl in *.
    pose proof (Open_at_unopened env st p s arg Hp Hdb Hopen Herr) as H1. cbv zeta in H1.
    rewrite H1.
    match type of H1 with _ = Returns (_, ?st1) =>
      assert (Hp1 : heap st1 !! p = Some s)
        by (by apply (Open_at_frame _ _ _ _ _ _ _ _ H1));
      destruct (IH st1 Hp1 Hdb Hall) as (rs & st' & HO & Hlen & Hp' & Hnext & Hclosed)
    end.
    rewrite HO. eexists _, st'. split; [done|]. simpl in *.
    split; [by rewrite Hlen|]. split; [done|].
    unfold Sql.Open in *. rewrite Hopen in *. simpl in *.
    split; [lia|done].
Qed.

Lemma Opens_without_handle_open_each_time_witness :
  exists rs st',
    Opens 0%nat [(healthy_env, "/a.txt"); (healthy_env, "/a.txt"); (healthy_env, "/b.txt")]
          unprovisioned = Returns (rs, st') /\
    heap st' !! 0%nat = Some (mkFS "/srv/files.db" None) /\
    Sql.next (driver st') = 3%nat /\
    Sql.closed (driver st') = [].
Proof.
  destruct (Opens_without_handle_open_each_time 0%nat
              [(healthy_env, "/a.txt"%string); (healthy_env, "/a.txt"%string);
               (healthy_env, "/b.txt"%string)]
              unprovisioned (mkFS "/srv/files.db" None))
    as (rs & st' & HO & _ & Hp & Hnext & Hclosed).
  { vm_compute. reflexivity. }
  { reflexivity. }
  { repeat constructor. }
  exists rs, st'. split; [exact HO|]. split; [exact Hp|]. split; [exact Hnext|exact Hclosed].
Defined.

(** [Cleanup] runs on a copy of the instance, in a new cell. *)
Lemma Cleanup_at_runs env st p s reply :
  heap st !! p = Some s ->
  Cleanup_at p reply env st =
    Returns (match db s with
             | Some h => if bool_decide (h ∈ Sql.closed (driver st)) then None else reply
             | None => None
             end,
             mkState (<[fresh (dom (heap st)) := s]> (heap st))
               (match db s with
                | Some h => Sql.mkDriver (Sql.next (driver st)) (h :: Sql.closed (driver st))
                              (Sql.log (driver st) ++ [Sql.EvClose h])
                | None => driver st
                end)).
Proof.
  intros Hp. unfold Cleanup_at, Cleanup, db_Close_result.
  unfold_M. rewrite Hp. simpl. rewrite lookup_insert_eq.
  by destruct (db s).
Qed.

Lemma fresh_cell_is_new st p s :
  heap st !! p = Some s -> fresh (dom (heap st)) <> p.
Proof.
  intros Hp Heq. apply (is_fresh (dom (heap st))). rewrite Heq. apply elem_of_dom. eauto.
Qed.

(** [Cleanup] closes the handle the instance holds and returns what
    [db.Close()] returns (nil for a handle closed before); with no handle
    it returns nil and calls nothing. In both cases the instance is left
    as it was: a closed handle stays in its [db] field. *)
Theorem Cleanup_closes_and_keeps env st p s reply :
  heap st !! p = Some s ->
  exists st1,
    Cleanup_at p reply env st =
      Returns (match db s with
               | Some h => if bool_decide (h ∈ Sql.closed (driver st)) then None else reply
               | None => None
               end, st1) /\
    heap st1 !! p = Some s /\
    driver st1 = match db s with
                 | Some h => Sql.mkDriver (Sql.next (driver st)) (h :: Sql.closed (driver st))
                               (Sql.log (driver st) ++ [Sql.EvClose h])
                 | None => driver st
                 end.
Proof.
  intros Hp. eexists. split; [by apply Cleanup_at_runs|]. simpl.
  split; [|done]. rewrite lookup_insert_ne; [done|]. by apply (fresh_cell_is_new st p s).
Qed.

(** [Cleanup] on the provisioned instance, with a close that reports
    nothing: handle 0 is closed, and the instance still holds it. *)
Lemma Cleanup_closes_and_keeps_witness :
  exists st1,
    Cleanup_at 0%nat None healthy_env provisioned = Returns (None, st1) /\
    heap st1 !! 0%nat = Some (mkFS "/srv/files.db" (Some 0%nat)) /\
    Sql.closed (driver st1) = [0%nat].
Proof.
  destruct (Cleanup_closes_and_keeps healthy_env provisioned 0%nat
              (mkFS "/srv/files.db" (Some 0%nat)) None)
    as (st1 & HC & Hp & Hd).
  { vm_compute. reflexivity. }
  exists st1. split; [exact HC|]. split; [exact Hp|]. by rewrite Hd.
Defined.

(** After [Cleanup] the instance is of no use: every later [Open],
    whatever the name and whatever is stored, queries the closed handle
    and returns [fs.ErrNotExist]; [sql.Open] is never called again. *)
Theorem Opens_after_Cleanup env st p s h reply calls :
  heap st !! p = Some s -> db s = Some h ->
  exists st1 rs st2,
    Cleanup_at p reply env st = Returns (if bool_decide (h ∈ Sql.closed (driver st)) then None else reply, st1) /\
    Opens p calls st1 = Returns (rs, st2) /\
    length rs = length calls /\
    Forall (fun r => r = (None, Some ErrNotExist)) rs /\
    heap st2 !! p = Some s /\
    Sql.next (driver st2) = Sql.next (driver st).
Proof.
  intros Hp Hdb.
  pose proof (Cleanup_at_runs env st p s reply Hp) as HC. rewrite Hdb in HC.
  match type of HC with _ = Returns (_, ?st1) =>
    assert (Hp1 : heap st1 !! p = Some s)
      by (simpl; rewrite lookup_insert_ne; [done|by apply (fresh_cell_is_new st p s)]);
    destruct (Opens_held p calls st1 s h Hp1 Hdb)
      as (rs & st2 & HO & Hlen & Hp2 & Hnext & _ & _ & Hall);
    exists st1, rs, st2
  end.
  split; [done|]. split; [done|]. split; [done|].
  split; [|split; [done|]].
  - apply Hall. simpl. apply list_elem_of_here.
  - by rewrite Hnext.
Qed.

Lemma Opens_after_Cleanup_witness :
  exists st1 st2,
    Cleanup_at 0%nat None healthy_env provisioned = Returns (None, st1) /\
    Opens 0%nat [(healthy_env, "/a.txt"); (healthy_env, "/a.txt")] st1
      = Returns ([(None, Some ErrNotExist); (None, Some ErrNotExist)], st2).
Proof.
  destruct (Opens_after_Cleanup healthy_env provisioned 0%nat
              (mkFS "/srv/files.db" (Some 0%nat)) 0%nat None
              [(healthy_env, "/a.txt"%string); (healthy_env, "/a.txt"%string)])
    as (st1 & rs & st2 & HC & HO & Hlen & Hall & _).
  { vm_compute. reflexivity. }
  { reflexivity. }
  exists st1, st2. split; [exact HC|].
  destruct rs as [|r1 [|r2 [|r3 rs]]]; try discriminate Hlen.
  apply Forall_cons in Hall as [-> Hall]. apply Forall_cons in Hall as [-> _].
  exact HO.
Defined.

(** ** Rows that do not scan, empty content, later clocks *)

(** A selected row whose [mode] does not fit [int32], or whose
    [modified] does not fit [int64], is not served: [Open] returns
    [fs.ErrNotExist] and no file built from part of the row. *)
Theorem Open_row_out_of_range env st p s h arg e :
  heap st !! p = Some s -> serving env st s = Some h ->
  Sql.select env arg = Some e ->
  (exists d, Sql.mode e = Some d /\ ~ (- 2^31 <= d < 2^31)) \/
  (exists m, Sql.modified e = Some m /\ ~ (- 2^63 <= m < 2^63)) ->
  value_of (Open_at p arg) env st = Some (None, Some ErrNotExist).
Proof.
  intros Hp Hs Hsel Hbad. rewrite (Open_at_value env st p s h arg Hp Hs).
  assert (Hdec : exists err, Sql.decode e = Sql.ScanErr err).
  { unfold Sql.decode, Sql.scan_int.
    destruct Hbad as [(d & Hd & Hrange)|(m & Hm & Hrange)].
    - rewrite Hd. destruct (Int.in_int32 d) eqn:Hfit.
      { exfalso. apply Hrange. by apply in_int32_range. }
      destruct (Sql.modified e) as [m|]; [destruct (Int.in_int64 m)|]; eauto.
    - rewrite Hm. destruct (Int.in_int64 m) eqn:Hfit.
      { exfalso. apply Hrange. by apply in_int64_range. }
      eauto. }
  destruct Hdec as [err Hdec].
  unfold Sql.QueryRowScan. destruct (bool_decide _); [done|].
  destruct (Sql.fault env h); [done|]. by rewrite Hsel, Hdec.
Qed.

Lemma Open_row_out_of_range_witness :
  value_of (Open_at 0%nat "/bad-mode.txt") edge_env provisioned = Some (None, Some ErrNotExist).
Proof.
  apply (Open_row_out_of_range edge_env provisioned 0%nat
           (mkFS "/srv/files.db" (Some 0%nat)) 0%nat "/bad-mode.txt"
           (Sql.mkEntry "/bad-mode.txt" (Some hello) None (Some (2^31)) None)).
  - vm_compute. reflexivity.
  - reflexivity.
  - vm_compute. reflexivity.
  - left. exists (2^31). split; [reflexivity|]. lia.
Defined.

(** A row whose content is NULL or empty opens as a file of size 0, and
    its first [Read] into a buffer that is not empty returns no bytes and
    [io.EOF]. *)
Theorem Open_empty_content env st p arg f err st' :
  Open_at p arg env st = Returns ((Some f, err), st') ->
  Size (info f) = 0 ->
  exists e,
    e ∈ Sql.files env /\ Sql.name e = arg /\
    default [] (Sql.content e) = [] /\
    forall n, n <> 0%nat -> exists f', Read f n = Returns (f', [], Some EOF).
Proof.
  intros H Hsize. destruct (Open_at_row _ _ _ _ _ _ _ H) as (e & Hin & Hname & _ & -> & _).
  exists e. split; [done|]. split; [done|].
  destruct (remaining_materialize (default [] (Sql.content e)) (Sql.modified e) (Sql.mode e))
    as [Hrem Hr].
  assert (Hnil : default [] (Sql.content e) = []).
  { unfold Size, materialize in Hsize.
    destruct (Sql.modified e), (Sql.mode e); simpl in Hsize;
      by destruct (default [] (Sql.content e)). }
  split; [done|]. intros n Hn.
  destruct (Read_step _ n Hr) as (f' & HR & _).
  rewrite Hrem, Hnil, firstn_nil in HR.
  rewrite Hnil. destruct (decide _) as [_|Hno] in HR; [by exists f'|].
  exfalso. by apply Hno.
Qed.

Lemma Open_empty_content_witness :
  exists f f',
    value_of (Open_at 0%nat "/undated.txt") edge_env provisioned = Some (Some f, None) /\
    Read f 16 = Returns (f', [], Some EOF).
Proof.
  assert (H : Open_at 0%nat "/undated.txt" edge_env provisioned =
              Returns ((Some (materialize [] None None), None),
                       state_after (Open_at 0%nat "/undated.txt") edge_env provisioned))
    by (vm_compute; reflexivity).
  destruct (Open_empty_content _ _ _ _ _ _ _ H eq_refl) as (e & _ & _ & _ & HR).
  destruct (HR 16%nat) as [f' Hf']; [lia|].
  exists (materialize [] None None), f'. split; [vm_compute; reflexivity|exact Hf'].
Defined.

(** Expiry is for good: when every stored row with the name is expired,
    [Open] returns [fs.ErrNotExist] at that clock and at every later one,
    as long as the rows stay as they are, whatever handle it runs on. *)
Theorem Open_expired_for_good env env' st p s h arg :
  Sql.files env' = Sql.files env -> Sql.now env <= Sql.now env' ->
  (forall e, e ∈ Sql.files env -> Sql.name e = arg -> expired (Sql.now env) e) ->
  heap st !! p = Some s -> serving env' st s = Some h ->
  value_of (Open_at p arg) env' st = Some (None, Some ErrNotExist).
Proof.
  intros Hfiles Hnow Hexp Hp Hs. rewrite (Open_at_value env' st p s h arg Hp Hs).
  assert (Hnone : Sql.select env' arg = None).
  { apply select_None. rewrite Hfiles. intros e Hin Hname.
    destruct (Hexp e Hin Hname) as (x & Hx & Hle). exists x. split; [done|lia]. }
  unfold Sql.QueryRowScan. destruct (bool_decide _); [done|].
  destruct (Sql.fault env' h); [done|]. by rewrite Hnone.
Qed.

Lemma Open_expired_for_good_witness :
  value_of (Open_at 0%nat "/old.txt") later_env provisioned = Some (None, Some ErrNotExist).
Proof.
  apply (Open_expired_for_good expired_env later_env provisioned 0%nat
           (mkFS "/srv/files.db" (Some 0%nat)) 0%nat "/old.txt").
  - reflexivity.
  - simpl. lia.
  - intros e Hin _. apply list_elem_of_singleton in Hin. subst e.
    exists 1700000500. split; [reflexivity|]. simpl. lia.
  - vm_compute. reflexivity.
  - reflexivity.
Defined.

(** ** Every way [Open] can end *)

(** On an instance in memory [Open] ends in one of three ways. It panics
    exactly when the instance holds no handle and [sql.Open] reports an
    error without a [*DB]; otherwise it returns, either a file with a nil
    error or no file with [fs.ErrNotExist]. *)
Theorem Open_ends env st p s arg :
  heap st !! p = Some s ->
  let open_fails := db s = None /\ Sql.open_db env = false /\ is_Some (Sql.open_err env) in
  (open_fails /\ Open_at p arg env st = Panics nil_deref) \/
  (~ open_fails /\
   exists f err st', Open_at p arg env st = Returns ((f, err), st') /\
     ((f = None /\ err = Some ErrNotExist) \/ (is_Some f /\ err = None))).
Proof.
  intros Hp open_fails.
  destruct (Open_at p arg env st) as [[[f err] st']|msg] eqn:HO.
  - right. split.
    + intros (Hdb & Hopen & [m Herr]).
      by rewrite (Open_at_open_failure_nil_db _ _ _ _ _ arg Hp Hdb Hopen Herr) in HO.
    + exists f, err, st'. split; [done|]. by apply (Open_at_results _ _ _ _ _ _ _ HO).
  - left. pose proof (Open_at_panics _ _ _ _ _ _ Hp HO) as (Hdb & Hopen & [m Herr]).
    split; [by unfold open_fails; eauto|].
    rewrite <- HO. by apply (Open_at_open_failure_nil_db env st p s m arg).
Qed.

Lemma Open_ends_witness :
  Open_at 0%nat "/a.txt" failing_env unprovisioned = Panics nil_deref /\
  (exists f err st', Open_at 0%nat "/a.txt" failing_env provisioned = Returns ((f, err), st')).
Proof.
  split.
  - destruct (Open_ends failing_env unprovisioned 0%nat (mkFS "/srv/files.db" None) "/a.txt")
      as [[_ HP]|[Hno _]].
    + vm_compute. reflexivity.
    + exact HP.
    + exfalso. apply Hno. split; [reflexivity|]. split; [reflexivity|]. simpl. eauto.
  - destruct (Open_ends failing_env provisioned 0%nat
                (mkFS "/srv/files.db" (Some 0%nat)) "/a.txt")
      as [[(Habs & _) _]|[_ (f & err & st' & HO & _)]].
    + vm_compute. reflexivity.
    + discriminate Habs.
    + by exists f, err, st'.
Defined.

(** ** [Name()] *)

Lemma Open_at_Name_witness :
  exists f st',
    Open_at 0%nat "/a.txt" healthy_env provisioned = Returns ((Some f, None), st') /\
    Name (fst (Stat f)) = ".".
Proof.
  assert (H : Open_at 0%nat "/a.txt" healthy_env provisioned =
              Returns ((Some (materialize hello (Some 1700000000) (Some 420)), None),
                       state_after (Open_at 0%nat "/a.txt") healthy_env provisioned))
    by (vm_compute; reflexivity).
  eexists _, _. split; [exact H|]. exact (Open_at_Name _ _ _ _ _ _ _ H).
Defined.

Lemma is_slash_false c : c <> Path.slash -> Path.is_slash c = false.
Proof. intros Hc. unfold Path.is_slash. by apply Ascii.eqb_neq. Qed.

Lemma take_element_no_slash l :
  Forall (fun c => c <> Path.slash) (Path.take_element l).
Proof.
  induction l as [|c l IH]; simpl; [constructor|].
  unfold Path.is_slash. destruct (Ascii.eqb_spec c Path.slash); by constructor.
Qed.

Lemma take_element_plain l rest :
  Forall (fun c => c <> Path.slash) l ->
  Path.take_element (l ++ Path.slash :: rest) = l /\ Path.take_element l = l.
Proof.
  induction 1 as [|c l Hc Hl [IH1 IH2]]; simpl.
  - done.
  - rewrite (is_slash_false c Hc). by rewrite IH1, IH2.
Qed.

Lemma drop_slashes_plain l :
  match l with c :: _ => c <> Path.slash | [] => True end -> Path.drop_slashes l = l.
Proof. destruct l as [|c l]; simpl; [done|]. intros Hc. by rewrite (is_slash_false c Hc). Qed.

Lemma list_ascii_of_string_append a b :
  list_ascii_of_string (a ++ b) = list_ascii_of_string a ++ list_ascii_of_string b.
Proof. induction a as [|c a IH]; simpl; [done|]. by rewrite IH. Qed.

Lemma Base_of_reversed (p : string) l :
  p <> "" -> rev (list_ascii_of_string p) = l ->
  Path.Base p = match rev (Path.take_element (Path.drop_slashes l)) with
                | [] => "/"%string
                | x => string_of_list_ascii x
                end.
Proof.
  intros Hp <-. unfold Path.Base. destruct (String.eqb_spec p ""); [done|].
  by destruct (rev _).
Qed.

(** [Name()] is never empty, and has no slash in it unless it is ["/"]
    itself. *)
Theorem Name_is_an_element fi :
  Name fi <> "" /\
  (Name fi = "/" \/ Forall (fun c => c <> Path.slash) (list_ascii_of_string (Name fi))).
Proof.
  unfold Name, Path.Base. destruct (String.eqb_spec (name fi) "") as [_|_].
  - split; [done|]. right. repeat constructor. done.
  - destruct (rev (Path.take_element _)) as [|c l] eqn:E.
    + split; [done|by left].
    + split; [done|]. right. rewrite list_ascii_of_string_of_list_ascii, <- E.
      apply Forall_rev. apply take_element_no_slash.
Qed.

(** [Name()] is the final element of the [name] field: for a [name] that
    is an element, that element; for a [name] that ends in a slash and an
    element, that element, whatever comes before. *)
Theorem Name_final_element fi x :
  plain x ->
  (name fi = x -> Name fi = x) /\
  (forall dir, name fi = (dir ++ "/" ++ x)%string -> Name fi = x).
Proof.
  intros [Hne Hx].
  assert (Hrev : Forall (fun c => c <> Path.slash) (rev (list_ascii_of_string x)))
    by (by apply Forall_rev).
  assert (Hhead : forall rest,
            match rev (list_ascii_of_string x) ++ rest with
            | c :: _ => c <> Path.slash
            | [] => True
            end).
  { intros rest. destruct (rev (list_ascii_of_string x)) as [|c l] eqn:E; simpl.
    - exfalso. apply Hne. apply (f_equal (@rev ascii)) in E. rewrite rev_involutive in E.
      simpl in E. rewrite <- (string_of_list_ascii_of_string x), E. done.
    - by inversion Hrev. }
  assert (Hback : match rev (rev (list_ascii_of_string x)) with
                  | [] => "/"%string
                  | y => string_of_list_ascii y
                  end = x).
  { rewrite rev_involutive. destruct (list_ascii_of_string x) as [|c l] eqn:E.
    - exfalso. apply Hne. by rewrite <- (string_of_list_ascii_of_string x), E.
    - by rewrite <- E, string_of_list_ascii_of_string. }
  unfold Name. split.
  - intros ->. rewrite (Base_of_reversed x _ Hne eq_refl).
    rewrite drop_slashes_plain.
    + by rewrite (proj2 (take_element_plain _ [] Hrev)).
    + specialize (Hhead []). by rewrite app_nil_r in Hhead.
  - intros dir ->.
    assert (Hl : rev (list_ascii_of_string (dir ++ "/" ++ x)) =
                 rev (list_ascii_of_string x) ++ Path.slash :: rev (list_ascii_of_string dir)).
    { rewrite !list_ascii_of_string_append. simpl. rewrite rev_app_distr. simpl.
      by rewrite <- app_assoc. }
    assert (Hne2 : (dir ++ "/" ++ x)%string <> "") by (by destruct dir).
    rewrite (Base_of_reversed _ _ Hne2 Hl).
    rewrite drop_slashes_plain by apply Hhead.
    by rewrite (proj1 (take_element_plain _ _ Hrev)).
Qed.

Lemma Name_final_element_witness :
  Name (mkInfo "a.txt" 5 Time.zero 420) = "a.txt" /\
  Name (mkInfo "/srv/www/a.txt" 5 Time.zero 420) = "a.txt".
Proof.
  assert (Hplain : plain "a.txt").
  { split; [done|]. repeat constructor; done. }
  split.
  - apply (proj1 (Name_final_element (mkInfo "a.txt" 5 Time.zero 420) "a.txt" Hplain)).
    reflexivity.
  - apply (proj2 (Name_final_element (mkInfo "/srv/www/a.txt" 5 Time.zero 420) "a.txt" Hplain)
             "/srv/www"%string).
    reflexivity.
Defined.
